(** * greenleeks: initialise a git repository with a bounded first commit

    A shallow embedding of [greenleeks.go].  The program is a sequence of
    calls into libraries (go-flags, slog, go-git, ini, path/filepath,
    forestfish/mymazda); the libraries are kept behind an interface
    ([Host]) over an abstract world, the program's own functions are
    translated one by one on top of it, in a state monad that also carries
    the two package-level variables [opts] and [authorInfo]. *)

From Stdlib Require Import ZArith List Bool Lia.
From Stdlib Require Import Ascii String DecimalString.
From stdpp Require Import base option list strings gmap.

Import ListNotations.
Local Open Scope Z_scope.
Local Open Scope string_scope.

(* ===================================================================== *)
(** ** Go values: [int], [error], [fmt] *)
(* ===================================================================== *)

(** Go's [int] on a 64-bit platform: a [Z] kept in [-2^63, 2^63). *)
Definition int := Z.

Definition int_min : Z := - 2 ^ 63.
Definition int_max : Z := 2 ^ 63 - 1.

Definition in_int (z : Z) : Prop := int_min <= z <= int_max.

Definition wrap (z : Z) : int := (z + 2 ^ 63) mod 2 ^ 64 - 2 ^ 63.

(** [x++] on an [int]. *)
Definition incr (x : int) : int := wrap (x + 1).

(** Error values.  Go compares errors by identity ([err == git.ErrX]), so
    the sentinels the program or the walk test for are constructors of
    their own; every other value is told apart by where it was made. *)
Inductive error : Type :=
| ErrRepositoryNotExists          (* git.ErrRepositoryNotExists *)
| ErrWorktreeNotProvided          (* git.ErrWorktreeNotProvided *)
| SkipDir                         (* filepath.SkipDir *)
| SkipAll                         (* filepath.SkipAll *)
| PathError (msg : string)        (* *fs.PathError, from Lstat / ReadDir *)
| LibError (msg : string)         (* any other error made by a library *)
| FmtError (msg : string).        (* made by fmt.Errorf *)

(** [err.Error()] *)
Definition Error (e : error) : string :=
  match e with
  | ErrRepositoryNotExists => "repository does not exist"
  | ErrWorktreeNotProvided => "worktree should be provided"
  | SkipDir => "skip this directory"
  | SkipAll => "skip everything and stop the walk"
  | PathError msg => msg
  | LibError msg => msg
  | FmtError msg => msg
  end.

Definition error_eqb (a b : error) : bool :=
  match a, b with
  | ErrRepositoryNotExists, ErrRepositoryNotExists => true
  | ErrWorktreeNotProvided, ErrWorktreeNotProvided => true
  | SkipDir, SkipDir => true
  | SkipAll, SkipAll => true
  | PathError x, PathError y => String.eqb x y
  | LibError x, LibError y => String.eqb x y
  | FmtError x, FmtError y => String.eqb x y
  | _, _ => false
  end.

Module fmt.

(** An operand of a formatting call. *)
Inductive arg : Type :=
| AInt (z : int)
| AErr (e : error)
| AStr (s : string).

(** Decimal rendering of an integer, as the verb [%d] prints it. *)
Definition itoa (z : Z) : string := NilZero.string_of_int (Z.to_int z).

(** The default rendering of an operand ([%v]; [%d] for an integer). *)
Definition show (a : arg) : string :=
  match a with
  | AInt z => itoa z
  | AErr e => Error e
  | AStr s => s
  end.

(** [fmt.Sprintf] for the verbs the program uses ([%d], [%v]): each verb
    consumes the next operand; text is copied through. *)
Fixpoint Sprintf (format : string) (args : list arg) : string :=
  match format with
  | EmptyString => EmptyString
  | String c rest =>
      if Ascii.eqb c "%" then
        match rest with
        | EmptyString => "%!(NOVERB)"
        | String v rest' =>
            match args with
            | a :: args' => show a ++ Sprintf rest' args'
            | [] => "%!" ++ String v "(MISSING)" ++ Sprintf rest' []
            end
        end
      else String c (Sprintf rest args)
  end.

Definition Errorf (format : string) (args : list arg) : error :=
  FmtError (Sprintf format args).

(** A text without a verb in it. *)
Fixpoint plain (s : string) : bool :=
  match s with
  | EmptyString => true
  | String c rest => negb (Ascii.eqb c "%") && plain rest
  end.

End fmt.

(* ===================================================================== *)
(** ** Outcomes and the state monad *)
(* ===================================================================== *)

(** A Go call either returns or panics. *)
Inductive outcome (A : Type) : Type :=
| Ret (a : A)
| Panic (e : error).
Arguments Ret {A} a.
Arguments Panic {A} e.

(** Computations over a mutable state [S]. *)
Definition M (S A : Type) : Type := S -> outcome A * S.

Definition ret {S A} (a : A) : M S A := fun s => (Ret a, s).

Definition bind {S A B} (m : M S A) (k : A -> M S B) : M S B :=
  fun s =>
    match m s with
    | (Ret a, s') => k a s'
    | (Panic e, s') => (Panic e, s')
    end.

Definition panic {S A} (e : error) : M S A := fun s => (Panic e, s).

Definition get {S} : M S S := fun s => (Ret s, s).

Definition modify {S} (f : S -> S) : M S unit := fun s => (Ret tt, f s).

Declare Scope go_scope.
Delimit Scope go_scope with go.
Notation "x <- m ;; k" := (bind m (fun x => k))
  (at level 100, m at next level, right associativity) : go_scope.
Notation "m ;;; k" := (bind m (fun _ => k))
  (at level 100, right associativity) : go_scope.

(* ===================================================================== *)
(** ** path/filepath: the directory tree and [Walk] *)
(* ===================================================================== *)

Module filepath.

(** What [Lstat] and the directory read give for a path and everything
    below it, at the time of the walk. *)
#[warnings="-register-all"]
Inductive node : Type :=
| NonDir                                      (* Lstat ok, not a directory *)
| Dir (entries : list (string * node))        (* Lstat ok, directory read *)
| DirUnreadable (msg : string)                (* Lstat ok, read fails *)
| LstatFails (msg : string).                  (* Lstat fails *)

(** [os.FileInfo], as far as the program looks at it. *)
Record FileInfo : Type := { IsDir : bool }.

Definition is_dir (n : node) : bool :=
  match n with
  | Dir _ | DirUnreadable _ => true
  | _ => false
  end.

(** [filepath.Join], without the cleaning of the result: the walk only
    hands the path on to the callback. *)
Definition Join (path name : string) : string := path ++ "/" ++ name.

Definition WalkFunc (S : Type) : Type :=
  string -> option FileInfo -> option error -> M S (option error).

Section Walk.
Context {S : Type}.
Variable walkFn : WalkFunc S.
Local Open Scope go_scope.

(** [filepath.walk]; the [LstatFails] arm is the callback the callers of
    [walk] make themselves when [Lstat] fails. *)
Fixpoint walk (path : string) (n : node) {struct n} : M S (option error) :=
  match n with
  | NonDir => walkFn path (Some {| IsDir := false |}) None
  | LstatFails msg => walkFn path None (Some (PathError msg))
  | DirUnreadable msg =>
      walkFn path (Some {| IsDir := true |}) (Some (PathError msg))
  | Dir entries =>
      err1 <- walkFn path (Some {| IsDir := true |}) None ;;
      match err1 with
      | Some _ => ret err1
      | None =>
          (fix range (names : list (string * node)) : M S (option error) :=
             match names with
             | [] => ret None
             | (name, child) :: names' =>
                 let filename := Join path name in
                 err <- walk filename child ;;
                 match child, err with
                 | _, None => range names'
                 | LstatFails _, Some e =>
                     if error_eqb e SkipDir then range names' else ret (Some e)
                 | _, Some e =>
                     if negb (is_dir child) || negb (error_eqb e SkipDir)
                     then ret (Some e) else range names'
                 end
             end) entries
      end
  end.

(** [filepath.Walk] *)
Definition Walk (root : string) (n : node) : M S (option error) :=
  err <- walk root n ;;
  match err with
  | Some e => if error_eqb e SkipDir || error_eqb e SkipAll
              then ret None else ret (Some e)
  | None => ret None
  end.

End Walk.

End filepath.

(* ===================================================================== *)
(** ** gopkg.in/ini.v1: sections of keys, values with references *)
(* ===================================================================== *)

Module ini.

(** A loaded file, as it is stored: sections by name, each a map from
    key name to the raw value that was read. *)
Record Section : Type := { keys : gmap string string }.
Record File : Type := { sections : gmap string Section }.

Definition DefaultSection : string := "DEFAULT".

(** How deep [Key.String] follows references. *)
Definition depthValues : nat := 99.

(** [*Section], as [File.Section] hands it out: the file it belongs to,
    its name, its keys. *)
Record SectionOf : Type := { f : File; sname : string; skeys : gmap string string }.

(** [*Key]: its section, its name, its raw value. *)
Record Key : Type := { s : SectionOf; name : string; value : string }.

(** [File.Section]: never fails; the empty name is the default section,
    a name that is absent reads as an empty section. *)
Definition File_Section (file : File) (nm : string) : SectionOf :=
  let nm := if String.eqb nm "" then DefaultSection else nm in
  {| f := file; sname := nm;
     skeys := keys (default {| keys := ∅ |} (sections file !! nm)) |}.

(** [Section.GetKey], with the options [ini.Load] sets: names are
    compared as they are.  A section whose name holds no '.' has no
    parent section to fall back on; the program reads [user] and the
    default section only. *)
Definition Section_GetKey (sec : SectionOf) (nm : string) : option Key :=
  match skeys sec !! nm with
  | Some v => Some {| s := sec; name := nm; value := v |}
  | None => None
  end.

(** [Section.Key]: never fails for a name that is not empty; a key that
    is absent reads as a key with the empty value. *)
Definition Section_Key (sec : SectionOf) (nm : string) : Key :=
  match Section_GetKey sec nm with
  | Some k => k
  | None => {| s := sec; name := nm; value := "" |}
  end.

(** [strings.Contains(val, "%")] *)
Fixpoint contains_percent (t : string) : bool :=
  match t with
  | EmptyString => false
  | String c rest => Ascii.eqb c "%" || contains_percent rest
  end.

(** The text before the first ')' and the text after it. *)
Fixpoint upto_paren (t : string) : option (string * string) :=
  match t with
  | EmptyString => None
  | String c rest =>
      if Ascii.eqb c ")" then Some (EmptyString, rest)
      else match upto_paren rest with
           | Some (a, b) => Some (String c a, b)
           | None => None
           end
  end.

(** A match of [varPattern], the expression %\(([^)]+)\)s, at the start
    of [t]. *)
Definition varPattern_here (t : string) : option string :=
  match t with
  | String p (String q rest) =>
      if Ascii.eqb p "%" && Ascii.eqb q "(" then
        match upto_paren rest with
        | Some (String c a, String x _) =>
            if Ascii.eqb x "s" then Some ("%(" ++ String c a ++ ")s") else None
        | _ => None
        end
      else None
  | _ => None
  end.

(** [varPattern.FindString]: the leftmost match, empty when there is
    none. *)
Fixpoint varPattern_FindString (t : string) : string :=
  match varPattern_here t with
  | Some m => m
  | None =>
      match t with
      | EmptyString => EmptyString
      | String _ rest => varPattern_FindString rest
      end
  end.

(** [strings.Replace(t, old, new, -1)] for an [old] that is not empty:
    every occurrence, left to right, without overlap.  [skip] counts
    the characters of an occurrence still to be dropped. *)
Fixpoint Replace_from (skip : nat) (t old new : string) : string :=
  match t with
  | EmptyString => EmptyString
  | String c rest =>
      match skip with
      | S n => Replace_from n rest old new
      | O =>
          if String.prefix old t
          then new ++ Replace_from (String.length old - 1) rest old new
          else String c (Replace_from 0 rest old new)
      end
  end.

Definition strings_Replace (t old new : string) : string := Replace_from 0 t old new.

(** The loop of [Key.transformValue]: a reference %(name)s is looked up
    in the section of the key and, when it is not there or is the key
    itself, in the default section; every occurrence of it is replaced
    by the raw value found.  The loop ends when no reference is left,
    when a reference leads nowhere, or after [depth] rounds. *)
Fixpoint substitute (k : Key) (depth : nat) (val : string) : string :=
  match depth with
  | O => val
  | S depth' =>
      let vr := varPattern_FindString val in
      if String.eqb vr "" then val
      else
        let noption := String.substring 2 (String.length vr - 4) vr in
        let nk :=
          match Section_GetKey (s k) noption with
          | Some nk =>
              if String.eqb (name nk) (name k)
              then Section_GetKey (File_Section (f (s k)) "") noption
              else Some nk
          | None => Section_GetKey (File_Section (f (s k)) "") noption
          end in
        match nk with
        | None => val
        | Some nk => substitute k depth' (strings_Replace val vr (value nk))
        end
  end.

(** [Key.transformValue], no [ValueMapper] being set. *)
Definition transformValue (k : Key) (val : string) : string :=
  if negb (contains_percent val) then val else substitute k depthValues val.

(** [Key.String] *)
Definition Key_String (k : Key) : string := transformValue k (value k).

End ini.

(* ===================================================================== *)
(** ** The program's data *)
(* ===================================================================== *)

Definition maxFilesErrorMessage : string := "too many files (%d), limit is %d".
Definition gitConfigFileName : string := ".gitconfig".
Definition gitConfigUserSection : string := "user".

Record AuthorInfo : Type := { Name : string; Email : string }.

(** The zero value [AuthorInfo{}]. *)
Definition AuthorInfo_zero : AuthorInfo := {| Name := ""; Email := "" |}.

(** The package-level [opts]. *)
Record Opts : Type := {
  LogFormat : string;
  Verbose : list bool;
  RootDir : string;
  MaxFiles : int;
  GitConfig : string;
  logLevel : int
}.

(** A library call that returns [(T, error)] and whose [T] is looked at
    only when the error is nil. *)
Inductive result (A : Type) : Type :=
| Ok (a : A)
| Err (e : error).
Arguments Ok {A} a.
Arguments Err {A} e.

Module git.

Record PlainOpenOptions : Type := { DetectDotGit : bool }.

(** [object.Signature] *)
Record Signature : Type := {
  Sig_Name : string;
  Sig_Email : string;
  Sig_When : Z
}.

(** [git.CommitOptions]; the program sets [Author] only. *)
Record CommitOptions : Type := { Author : option Signature }.

End git.

Module slog.

Inductive Level : Type := LevelDebug | LevelInfo | LevelWarn | LevelError.

End slog.

(* ===================================================================== *)
(** ** The libraries, as the program sees them *)
(* ===================================================================== *)

(** The world [W] holds everything outside the process: the file system
    with its repositories, the home directory, the command line, the
    clock.  Calls that only look are functions of the world; calls that
    may write return the new world.  Where the program throws the first
    result of a call away ([_, err := ...]) only the error is modelled.
    [setLogLevel] and [setupLogger] are functions of this package that
    live in another file; they are taken as they are called: they may
    look at the world, may update [opts], and return an error or nil.
    The logger they install is state of the process that the model does
    not follow: the calls to [slog] are recorded, not what is printed. *)
Class Host (W : Type) : Type := {
  Repository : Type;
  Worktree : Type;
  (* os, go-flags *)
  os_Args : W -> list string;
  flags_ParseArgs : Opts -> list string -> Opts * option error;
  (* the package's logging set-up *)
  host_setLogLevel : Opts -> W -> option error * Opts;
  host_setupLogger : Opts -> W -> option error * Opts;
  (* mymazda, ini *)
  mymazda_ExpandTilde : string -> W -> result string;
  ini_Load : string -> W -> result ini.File;
  (* go-git *)
  git_PlainOpenWithOptions :
    string -> git.PlainOpenOptions -> W -> result Repository;
  git_PlainOpen : string -> W -> result Repository;
  git_PlainInit : string -> bool -> W -> option error * W;
  Repository_Worktree : Repository -> W -> result Worktree;
  Worktree_Add : Worktree -> string -> W -> option error * W;
  Worktree_Commit :
    Worktree -> string -> git.CommitOptions -> W -> option error * W;
  (* time, file system *)
  time_Now : W -> Z;
  fs_tree : string -> W -> filepath.node
}.

(* ===================================================================== *)
(** ** The program *)
(* ===================================================================== *)

Section Program.
Context {W : Type} `{HW : Host W}.
Local Open Scope go_scope.

(** What the process asked of the logger and of the repository, in the
    order of the calls. *)
Inductive event : Type :=
| Logged (level : slog.Level) (msg : string) (attrs : list (string * fmt.arg))
| CalledPlainInit (path : string) (isBare : bool)
| CalledAdd (w : Worktree) (glob : string)
| CalledCommit (w : Worktree) (msg : string) (o : git.CommitOptions).

(** The process: the package-level variables, the world, the calls made. *)
Record state : Type := {
  opts : Opts;
  authorInfo : AuthorInfo;
  world : W;
  trace : list event
}.

Definition set_opts (o : Opts) (s : state) : state :=
  {| opts := o; authorInfo := authorInfo s; world := world s; trace := trace s |}.

Definition set_authorInfo (a : AuthorInfo) (s : state) : state :=
  {| opts := opts s; authorInfo := a; world := world s; trace := trace s |}.

Definition set_world (w : W) (s : state) : state :=
  {| opts := opts s; authorInfo := authorInfo s; world := w; trace := trace s |}.

Definition emit (e : event) (s : state) : state :=
  {| opts := opts s; authorInfo := authorInfo s; world := world s;
     trace := (trace s ++ [e])%list |}.

(** *** Library calls, lifted to the process *)

(** A call that only looks at the world. *)
Definition look {A} (f : W -> A) : M state A := fun s => (Ret (f (world s)), s).

(** A call that may write to the world, recorded as [e]. *)
Definition act (e : event) (f : W -> option error * W) : M state (option error) :=
  fun s => let '(err, w) := f (world s) in (Ret err, set_world w (emit e s)).

Definition slog_Info (msg : string) (attrs : list (string * fmt.arg)) : M state unit :=
  modify (emit (Logged slog.LevelInfo msg attrs)).

Definition slog_Error (msg : string) (attrs : list (string * fmt.arg)) : M state unit :=
  modify (emit (Logged slog.LevelError msg attrs)).

Definition PlainInit (path : string) (isBare : bool) : M state (option error) :=
  act (CalledPlainInit path isBare) (git_PlainInit path isBare).

Definition Add (w : Worktree) (glob : string) : M state (option error) :=
  act (CalledAdd w glob) (Worktree_Add w glob).

Definition Commit (w : Worktree) (msg : string) (o : git.CommitOptions)
  : M state (option error) :=
  act (CalledCommit w msg o) (Worktree_Commit w msg o).

(** Modelled from the spec: [setLogLevel] is defined in another file of
    the package; the specification says of it only that the log set-up
    can fail.  It is taken from the host: it may look at the world, may
    update [opts] (it owns [opts.logLevel]) and returns an error or nil. *)
Definition setLogLevel : M state (option error) :=
  fun s => let '(err, o) := host_setLogLevel (opts s) (world s) in
           (Ret err, set_opts o s).

(** Modelled from the spec: [setupLogger] is defined in another file of
    the package; the specification says of it only that the log set-up
    can fail.  It is taken from the host in the same way. *)
Definition setupLogger : M state (option error) :=
  fun s => let '(err, o) := host_setupLogger (opts s) (world s) in
           (Ret err, set_opts o s).

(** *** greenleeks.go *)

Definition parseFlags : M state (option error) :=
  fun s => let '(o, err) := flags_ParseArgs (opts s) (os_Args (world s)) in
           (Ret err, set_opts o s).

Definition readGitConfig (gitConfigPath : string) : M state (result ini.File) :=
  cfg <- look (ini_Load gitConfigPath) ;;
  match cfg with
  | Err err => ret (Err err)
  | Ok cfg => ret (Ok cfg)
  end.

Definition configureGitUserInfo : M state (AuthorInfo * option error) :=
  s <- get ;;
  r <- look (mymazda_ExpandTilde (GitConfig (opts s))) ;;
  match r with
  | Err err => panic err
  | Ok gitConfigPath =>
      let ai := {| Name := "Your Name"; Email := "your.email@example.com" |} in
      r <- readGitConfig gitConfigPath ;;
      match r with
      | Err err => ret (AuthorInfo_zero, Some err)
      | Ok config =>
          let name := ini.Key_String
            (ini.Section_Key (ini.File_Section config gitConfigUserSection) "name") in
          let email := ini.Key_String
            (ini.Section_Key (ini.File_Section config gitConfigUserSection) "email") in
          let ai := if negb (String.eqb name "")
                    then {| Name := name; Email := Email ai |} else ai in
          let ai := if negb (String.eqb email "")
                    then {| Name := Name ai; Email := email |} else ai in
          ret (ai, None)
      end
  end.

Definition isUnderGitControl (rootDir : string) : M state (bool * option error) :=
  r <- look (git_PlainOpenWithOptions rootDir {| git.DetectDotGit := true |}) ;;
  match r with
  | Ok _ => ret (true, None)
  | Err err =>
      if error_eqb err ErrRepositoryNotExists || error_eqb err ErrWorktreeNotProvided
      then ret (false, None)
      else ret (false, Some (fmt.Errorf "failed to open repository: %v" [fmt.AErr err]))
  end.

Definition initializeGitRepository (rootDir : string) : M state (option error) :=
  err <- PlainInit rootDir false ;;
  match err with
  | Some err =>
      ret (Some (fmt.Errorf "failed to initialize git repository: %v" [fmt.AErr err]))
  | None => ret None
  end.

Definition addAllFiles (rootDir : string) : M state (option error) :=
  r <- look (git_PlainOpen rootDir) ;;
  match r with
  | Err err => ret (Some (fmt.Errorf "failed to open repository: %v" [fmt.AErr err]))
  | Ok repo =>
      r <- look (Repository_Worktree repo) ;;
      match r with
      | Err err => ret (Some (fmt.Errorf "failed to get worktree: %v" [fmt.AErr err]))
      | Ok worktree =>
          err <- Add worktree "." ;;
          match err with
          | Some err =>
              ret (Some (fmt.Errorf "failed to add all files: %v" [fmt.AErr err]))
          | None => ret None
          end
      end
  end.

Definition commit (rootDir message : string) : M state (option error) :=
  r <- look (git_PlainOpen rootDir) ;;
  match r with
  | Err err => ret (Some (fmt.Errorf "failed to open repository: %v" [fmt.AErr err]))
  | Ok repo =>
      r <- look (Repository_Worktree repo) ;;
      match r with
      | Err err => ret (Some (fmt.Errorf "failed to get worktree: %v" [fmt.AErr err]))
      | Ok worktree =>
          s <- get ;;
          now <- look time_Now ;;
          let author := {| git.Sig_Name := Name (authorInfo s);
                           git.Sig_Email := Email (authorInfo s);
                           git.Sig_When := now |} in
          err <- Commit worktree message {| git.Author := Some author |} ;;
          match err with
          | Some err => ret (Some (fmt.Errorf "failed to commit: %v" [fmt.AErr err]))
          | None => ret err
          end
      end
  end.

(** The function literal handed to [filepath.Walk]; its state is the
    local [fileCount] it closes over, [maxFiles] is [opts.MaxFiles]. *)
Definition countFiles_visit (maxFiles : int) : filepath.WalkFunc int :=
  fun path info err =>
    match err with
    | Some err => ret (Some err)
    | None =>
        match info with
        | None => panic (LibError "invalid memory address or nil pointer dereference")
        | Some info =>
            if negb (filepath.IsDir info) then
              modify incr ;;;
              fileCount <- get ;;
              if fileCount >? maxFiles
              then ret (Some (fmt.Errorf maxFilesErrorMessage
                                [fmt.AInt fileCount; fmt.AInt maxFiles]))
              else ret None
            else ret None
        end
    end.

Definition countFiles (rootDir : string) : M state (int * option error) :=
  fun s =>
    let fileCount := 0 in
    match filepath.Walk (countFiles_visit (MaxFiles (opts s)))
            rootDir (fs_tree rootDir (world s)) fileCount with
    | (Ret err, fileCount) => (Ret (fileCount, err), s)
    | (Panic e, _) => (Panic e, s)
    end.

Definition run : M state (option error) :=
  r <- configureGitUserInfo ;;
  let '(ai, err) := r in
  modify (set_authorInfo ai) ;;;
  match err with
  | Some err =>
      ret (Some (fmt.Errorf "failed to configure git user info: %v" [fmt.AErr err]))
  | None =>
      s <- get ;;
      r <- isUnderGitControl (RootDir (opts s)) ;;
      let '(isUnderGit, err) := r in
      match err with
      | Some err =>
          ret (Some (fmt.Errorf
                       "failed to check if directory is under git control: %v"
                       [fmt.AErr err]))
      | None =>
          if isUnderGit then
            slog_Info "Directory is already under git control." [] ;;;
            ret None
          else
            slog_Info "Initializing git repository..." [] ;;;
            err <- initializeGitRepository (RootDir (opts s)) ;;
            match err with
            | Some err =>
                ret (Some (fmt.Errorf "failed to initialize git repository: %v"
                             [fmt.AErr err]))
            | None =>
                r <- countFiles (RootDir (opts s)) ;;
                let '(fileCount, err) := r in
                match err with
                | Some err =>
                    ret (Some (fmt.Errorf "failed to count files: %v" [fmt.AErr err]))
                | None =>
                    if fileCount >? MaxFiles (opts s)
                    then ret (Some (fmt.Errorf maxFilesErrorMessage
                                      [fmt.AInt fileCount; fmt.AInt (MaxFiles (opts s))]))
                    else
                      err <- addAllFiles (RootDir (opts s)) ;;
                      match err with
                      | Some err =>
                          ret (Some (fmt.Errorf "failed to add all files: %v"
                                       [fmt.AErr err]))
                      | None =>
                          err <- commit (RootDir (opts s)) "Boilerplate" ;;
                          match err with
                          | Some err =>
                              ret (Some (fmt.Errorf "failed to commit: %v"
                                           [fmt.AErr err]))
                          | None =>
                              slog_Info "Git initialization successful." [] ;;;
                              ret None
                          end
                      end
                end
            end
      end
  end.

Definition Execute : M state int :=
  err <- parseFlags ;;
  match err with
  | Some _ => ret 1
  | None =>
      err <- setLogLevel ;;
      match err with
      | Some _ => ret 1
      | None =>
          err <- setupLogger ;;
          match err with
          | Some _ => ret 1
          | None =>
              err <- run ;;
              match err with
              | Some err =>
                  slog_Error "run failed" [("error", fmt.AErr err)] ;;;
                  ret 1
              | None => ret 0
              end
          end
      end
  end.

End Program.

(* ===================================================================== *)
(** ** Notions the statements use *)
(* ===================================================================== *)

(** One call of the walk's callback, as the callback tells them apart. *)
Inductive visit : Type :=
| VFile                 (* a non-directory entry, no error *)
| VDir                  (* a directory, no error *)
| VFail (msg : string). (* an entry handed over with an I/O error *)

(** The callbacks [Walk] makes over a tree, in order, when none of them
    stops it. *)
Fixpoint visits (n : filepath.node) : list visit :=
  match n with
  | filepath.NonDir => [VFile]
  | filepath.LstatFails msg => [VFail msg]
  | filepath.DirUnreadable msg => [VFail msg]
  | filepath.Dir entries =>
      VDir :: (fix below (es : list (string * filepath.node)) : list visit :=
                 match es with
                 | [] => []
                 | (_, child) :: es' => (visits child ++ below es')%list
                 end) entries
  end.

Definition is_file (v : visit) : bool :=
  match v with VFile => true | _ => false end.

Definition is_fail (v : visit) : bool :=
  match v with VFail _ => true | _ => false end.

(** Number of non-directory entries among some visits. *)
Definition files_in (vs : list visit) : nat := length (List.filter is_file vs).

(** A tree the walk gets through without an I/O failure. *)
Definition walkable (n : filepath.node) : Prop :=
  forallb (fun v => negb (is_fail v)) (visits n) = true.

(** The error the callback makes when the counter passes the limit. *)
Definition too_many (fileCount maxFiles : int) : error :=
  fmt.Errorf maxFilesErrorMessage [fmt.AInt fileCount; fmt.AInt maxFiles].

(** The number of non-directory entries of a tree. *)
Definition file_count (n : filepath.node) : Z := Z.of_nat (files_in (visits n)).

(** The callback run over a list of visits, from counter [c]. *)
Fixpoint scan (maxFiles : int) (vs : list visit) (c : int) : option error * int :=
  match vs with
  | [] => (None, c)
  | VDir :: vs' => scan maxFiles vs' c
  | VFail msg :: _ => (Some (PathError msg), c)
  | VFile :: vs' =>
      let c' := incr c in
      if c' >? maxFiles
      then (Some (fmt.Errorf maxFilesErrorMessage [fmt.AInt c'; fmt.AInt maxFiles]), c')
      else scan maxFiles vs' c'
  end.

(** A result of the scan, as the walk returns it. *)
Definition returned (r : option error * int) : outcome (option error) * int :=
  (Ret (fst r), snd r).


(** A setting that is present and not empty overrides the default. *)
Definition override (v : option string) (dflt : string) : string :=
  match v with
  | Some x => if decide (x = "") then dflt else x
  | None => dflt
  end.

(** What [Key.String] makes of the value of [user.<key>]: the value
    with its references followed; empty when section or key is absent. *)
Definition rendered (config : ini.File) (key : string) : string :=
  ini.Key_String (ini.Section_Key (ini.File_Section config gitConfigUserSection) key).

(** The identity for a readable file: each rendered value that is not
    empty, the default otherwise. *)
Definition resolved (config : ini.File) : AuthorInfo :=
  {| Name := override (Some (rendered config "name")) "Your Name";
     Email := override (Some (rendered config "email")) "your.email@example.com" |}.


(** No visit of the list is an I/O failure. *)
Definition no_failure (vs : list visit) : bool :=
  forallb (fun v => negb (is_fail v)) vs.

(** How a walk that ran the callback on [seen], and left [rest] alone,
    ends: with no error after the whole list; or with the error of the
    last entry seen, which is an I/O failure or the non-directory entry
    whose increment took the counter above [maxFiles]. *)
Definition walk_ends (maxFiles : int) (seen rest : list visit)
    (fileCount : int) (err : option error) : Prop :=
  match err with
  | None =>
      rest = [] /\ no_failure seen = true /\
      (files_in seen = 0%nat \/ fileCount <= maxFiles)
  | Some e =>
      exists pre v,
        seen = (pre ++ [v])%list /\ no_failure pre = true /\
        (files_in pre = 0%nat \/ Nat.iter (files_in pre) incr 0 <= maxFiles) /\
        match v with
        | VFail msg => e = PathError msg
        | VFile =>
            fileCount > maxFiles /\
            e = too_many fileCount maxFiles /\
            fileCount = (if (0 <=? maxFiles)%Z then maxFiles + 1 else 1)
        | VDir => False
        end
  end.

(** [sub] occurs in [s]. *)
Definition mentions (s sub : string) : bool :=
  match String.index 0 sub s with Some _ => true | None => false end.

(** The calls of a trace that write to a repository. *)
Definition is_write {W} `{Host W} (e : event) : bool :=
  match e with Logged _ _ _ => false | _ => true end.

Definition writes {W} `{Host W} (tr : list event) : list event :=
  List.filter is_write tr.

(* ===================================================================== *)
(** ** A small world to run the program in *)
(* ===================================================================== *)

Module Sim.

(** One root directory, at most one repository in it. *)
Record env : Type := {
  args : list string;
  home : option string;                 (* None: the home directory is unknown *)
  configs : gmap string ini.File;       (* the configuration files that can be read *)
  tree : filepath.node;                 (* what is under the root directory *)
  repo : option (list (string * git.CommitOptions));  (* commits, None: no repository *)
  staged : list string;
  clock : Z
}.

Definition ExpandTilde (path : string) (w : env) : result string :=
  match home w with
  | None => Err (LibError "user: Current requires cgo or $USER, $HOME set in environment")
  | Some h =>
      match path with
      | String "~" rest => Ok (h ++ rest)
      | _ => Ok path
      end
  end.

Definition Load (path : string) (w : env) : result ini.File :=
  match configs w !! path with
  | Some f => Ok f
  | None => Err (PathError ("open " ++ path ++ ": no such file or directory"))
  end.

Definition Open (path : string) (w : env) : result string :=
  match repo w with
  | Some _ => Ok path
  | None => Err ErrRepositoryNotExists
  end.

(** Initialisation puts a [.git] directory with two files into the root. *)
Definition Init (path : string) (isBare : bool) (w : env) : option error * env :=
  match repo w with
  | Some _ => (Some (LibError "repository already exists"), w)
  | None =>
      let dotgit := (".git", filepath.Dir [("HEAD", filepath.NonDir);
                                           ("config", filepath.NonDir)]) in
      (None,
       {| args := args w; home := home w; configs := configs w;
          tree := match tree w with
                  | filepath.Dir es => filepath.Dir (dotgit :: es)
                  | t => t
                  end;
          repo := Some []; staged := []; clock := clock w |})
  end.

Definition Stage (wt glob : string) (w : env) : option error * env :=
  (None,
   {| args := args w; home := home w; configs := configs w; tree := tree w;
      repo := repo w; staged := glob :: staged w; clock := clock w |}).

Definition Record_ (wt msg : string) (o : git.CommitOptions) (w : env)
  : option error * env :=
  match repo w with
  | None => (Some ErrRepositoryNotExists, w)
  | Some cs =>
      (None,
       {| args := args w; home := home w; configs := configs w; tree := tree w;
          repo := Some (cs ++ [(msg, o)])%list; staged := []; clock := clock w |})
  end.

(** The parser of this world knows no flag: it leaves [opts] alone and
    refuses [--bogus]. *)
Definition Parse (o : Opts) (argv : list string) : Opts * option error :=
  if existsb (String.eqb "--bogus") argv
  then (o, Some (LibError "unknown flag `bogus'"))
  else (o, None).

#[export] Instance host : Host env := {|
  Repository := string;
  Worktree := string;
  os_Args := args;
  flags_ParseArgs := Parse;
  host_setLogLevel := fun o _ => (None, o);
  host_setupLogger := fun o _ => (None, o);
  mymazda_ExpandTilde := ExpandTilde;
  ini_Load := Load;
  git_PlainOpenWithOptions := fun path _ => Open path;
  git_PlainOpen := Open;
  git_PlainInit := Init;
  Repository_Worktree := fun r _ => Ok r;
  Worktree_Add := Stage;
  Worktree_Commit := Record_;
  time_Now := clock;
  fs_tree := fun _ => tree
|}.

Definition defaults : Opts :=
  {| LogFormat := "text"; Verbose := []; RootDir := "."; MaxFiles := 100;
     GitConfig := "~/.gitconfig"; logLevel := 0 |}.

Definition with_args (a : list string) (w : env) : env :=
  {| args := a; home := home w; configs := configs w; tree := tree w;
     repo := repo w; staged := staged w; clock := clock w |}.

Definition with_tree (t : filepath.node) (w : env) : env :=
  {| args := args w; home := home w; configs := configs w; tree := t;
     repo := repo w; staged := staged w; clock := clock w |}.

Definition one_file : filepath.node :=
  filepath.Dir [("a.txt", filepath.NonDir)].

Definition locked_then_file : filepath.node :=
  filepath.Dir [("locked", filepath.DirUnreadable "open locked: permission denied");
                ("z.txt", filepath.NonDir)].

Definition with_MaxFiles (n : int) (o : Opts) : Opts :=
  {| LogFormat := LogFormat o; Verbose := Verbose o; RootDir := RootDir o;
     MaxFiles := n; GitConfig := GitConfig o; logLevel := logLevel o |}.

Definition gitconfig : ini.File :=
  {| ini.sections :=
       {[ "user" := {| ini.keys := {[ "name" := "Ada"; "email" := "ada@example.org" ]} |} ]} |}.



(** Three files in a fresh directory, a readable configuration. *)
Definition fresh : env :=
  {| args := ["greenleeks"]; home := Some "/home/ada";
     configs := {[ "/home/ada/.gitconfig" := gitconfig ]};
     tree := filepath.Dir [("a.txt", filepath.NonDir);
                           ("src", filepath.Dir [("b.go", filepath.NonDir);
                                                 ("c.go", filepath.NonDir)])];
     repo := None; staged := []; clock := 1700000000 |}.

(** The same directory once it holds a repository. *)
Definition tracked : env :=
  {| args := args fresh; home := home fresh; configs := configs fresh;
     tree := tree fresh; repo := Some []; staged := []; clock := clock fresh |}.

(** A tracked directory, no configuration file to read. *)
Definition tracked_noconfig : env :=
  {| args := args fresh; home := home fresh; configs := ∅;
     tree := tree fresh; repo := Some []; staged := []; clock := clock fresh |}.

(** The home directory cannot be found. *)
Definition homeless : env :=
  {| args := args fresh; home := None; configs := configs fresh;
     tree := tree fresh; repo := None; staged := []; clock := clock fresh |}.

(** The process in this world, and the worktree at a path. *)
Definition proc : Type := @state env host.

Definition worktree (path : string) : @Worktree env host := path.

Definition start (o : Opts) (w : env) : proc :=
  {| opts := o; authorInfo := AuthorInfo_zero; world := w; trace := [] |}.

End Sim.

(* ===================================================================== *)
(** ** The small world, with calls that can be made to fail *)
(* ===================================================================== *)

Module Faulty.

(** The world of [Sim] and, for each call of go-git, the error it is to
    fail with, if any. *)
Record env : Type := {
  base : Sim.env;
  open_fault : option error;       (* PlainOpenWithOptions *)
  init_fault : option error;       (* PlainInit *)
  reopen_fault : option error;     (* PlainOpen *)
  worktree_fault : option error;   (* Repository.Worktree *)
  add_fault : option error;        (* Worktree.Add *)
  commit_fault : option error      (* Worktree.Commit *)
}.

Definition with_base (b : Sim.env) (w : env) : env :=
  {| base := b; open_fault := open_fault w; init_fault := init_fault w;
     reopen_fault := reopen_fault w; worktree_fault := worktree_fault w;
     add_fault := add_fault w; commit_fault := commit_fault w |}.

(** A call that looks: fail with the fault, or ask the world below. *)
Definition looking {A} (fault : env -> option error) (f : Sim.env -> result A)
    (w : env) : result A :=
  match fault w with
  | Some e => Err e
  | None => f (base w)
  end.

(** A call that writes: fail with the fault and leave the world alone, or
    let the world below do it. *)
Definition writing (fault : env -> option error)
    (f : Sim.env -> option error * Sim.env) (w : env) : option error * env :=
  match fault w with
  | Some e => (Some e, w)
  | None => let '(err, b) := f (base w) in (err, with_base b w)
  end.

#[export] Instance host : Host env := {|
  Repository := string;
  Worktree := string;
  os_Args := fun w => Sim.args (base w);
  flags_ParseArgs := Sim.Parse;
  host_setLogLevel := fun o _ => (None, o);
  host_setupLogger := fun o _ => (None, o);
  mymazda_ExpandTilde := fun path w => Sim.ExpandTilde path (base w);
  ini_Load := fun path w => Sim.Load path (base w);
  git_PlainOpenWithOptions := fun path _ => looking open_fault (Sim.Open path);
  git_PlainOpen := fun path => looking reopen_fault (Sim.Open path);
  git_PlainInit := fun path isBare => writing init_fault (Sim.Init path isBare);
  Repository_Worktree := fun r => looking worktree_fault (fun _ => Ok r);
  Worktree_Add := fun wt glob => writing add_fault (Sim.Stage wt glob);
  Worktree_Commit := fun wt msg o => writing commit_fault (Sim.Record_ wt msg o);
  time_Now := fun w => Sim.clock (base w);
  fs_tree := fun _ w => Sim.tree (base w)
|}.

(** No fault at all: the world of [Sim]. *)
Definition sound (b : Sim.env) : env :=
  {| base := b; open_fault := None; init_fault := None; reopen_fault := None;
     worktree_fault := None; add_fault := None; commit_fault := None |}.

Definition failing_open (e : error) (b : Sim.env) : env :=
  {| base := b; open_fault := Some e; init_fault := None; reopen_fault := None;
     worktree_fault := None; add_fault := None; commit_fault := None |}.

Definition failing_init (e : error) (b : Sim.env) : env :=
  {| base := b; open_fault := None; init_fault := Some e; reopen_fault := None;
     worktree_fault := None; add_fault := None; commit_fault := None |}.

Definition failing_add (e : error) (b : Sim.env) : env :=
  {| base := b; open_fault := None; init_fault := None; reopen_fault := None;
     worktree_fault := None; add_fault := Some e; commit_fault := None |}.

Definition failing_commit (e : error) (b : Sim.env) : env :=
  {| base := b; open_fault := None; init_fault := None; reopen_fault := None;
     worktree_fault := None; add_fault := None; commit_fault := Some e |}.

Definition proc : Type := @state env host.

Definition worktree (path : string) : @Worktree env host := path.

Definition start (o : Opts) (w : env) : proc :=
  {| opts := o; authorInfo := AuthorInfo_zero; world := w; trace := [] |}.

End Faulty.

(* ===================================================================== *)
(** ** Arithmetic of [int] *)
(* ===================================================================== *)

Lemma wrap_in_int (z : Z) : in_int (wrap z).
Proof.
  unfold in_int, wrap, int_min, int_max.
  pose proof (Z.mod_pos_bound (z + 2 ^ 63) (2 ^ 64) ltac:(lia)). lia.
Qed.

Lemma wrap_id (z : Z) : in_int z -> wrap z = z.
Proof.
  unfold in_int, wrap, int_min, int_max. intros Hz.
  rewrite Z.mod_small; lia.
Qed.

Lemma incr_in_int (c : int) : in_int (incr c).
Proof. apply wrap_in_int. Qed.

Lemma incr_succ (c : int) : int_min <= c < int_max -> incr c = c + 1.
Proof.
  intros Hc. unfold incr. apply wrap_id. unfold in_int. lia.
Qed.

Lemma incr_max : incr int_max = int_min.
Proof. reflexivity. Qed.

(** An increment that lands above an in-range bound did not wrap. *)
Lemma incr_above (c T : int) :
  in_int T -> int_min <= c <= T -> incr c > T -> incr c = T + 1.
Proof.
  intros HT Hc Hgt. unfold in_int in HT.
  destruct (Z.eq_dec c int_max) as [->|Hne].
  - rewrite incr_max in Hgt. lia.
  - rewrite incr_succ in * by lia. lia.
Qed.

Lemma gtb_true (a b : Z) : (a >? b) = true <-> a > b.
Proof. rewrite Z.gtb_ltb, Z.ltb_lt. lia. Qed.

Lemma gtb_false (a b : Z) : (a >? b) = false <-> a <= b.
Proof. rewrite Z.gtb_ltb, Z.ltb_ge. lia. Qed.

(* ===================================================================== *)
(** ** The walk and the scan *)
(* ===================================================================== *)

(** Induction over trees, with the hypothesis for every child. *)
Lemma node_induction (P : filepath.node -> Prop) :
  P filepath.NonDir ->
  (forall es, Forall (fun p => P (snd p)) es -> P (filepath.Dir es)) ->
  (forall msg, P (filepath.DirUnreadable msg)) ->
  (forall msg, P (filepath.LstatFails msg)) ->
  forall n, P n.
Proof.
  intros HN HD HU HL.
  fix IH 1. intros [|es|msg|msg]; [apply HN| |apply HU|apply HL].
  apply HD. induction es as [|[name child] es IHes]; constructor.
  - apply IH.
  - apply IHes.
Qed.

Lemma scan_app (T : int) (vs ws : list visit) (c : int) :
  scan T (vs ++ ws) c =
  match scan T vs c with
  | (None, c') => scan T ws c'
  | r => r
  end.
Proof.
  revert c. induction vs as [|v vs IH]; intros c; simpl; auto.
  destruct v; auto.
  destruct (incr c >? T); auto.
Qed.

(** The callback never asks the walk to skip. *)
Lemma scan_no_skip (T : int) (vs : list visit) (c c' : int) (e : error) :
  scan T vs c = (Some e, c') ->
  error_eqb e SkipDir = false /\ error_eqb e SkipAll = false.
Proof.
  revert c. induction vs as [|v vs IH]; intros c; simpl.
  - discriminate.
  - destruct v; eauto.
    + destruct (incr c >? T); eauto.
      intros [= <- <-]. auto.
    + intros [= <- <-]. auto.
Qed.

Lemma walk_scan (T : int) (n : filepath.node) :
  forall path c,
    filepath.walk (countFiles_visit T) path n c = returned (scan T (visits n) c).
Proof.
  induction n as [|es IH|msg|msg] using node_induction; intros path c.
  - simpl. unfold bind, modify, get, ret. simpl.
    destruct (incr c >? T); reflexivity.
  - cbn [filepath.walk visits]. unfold bind at 1. cbn.
    unfold ret at 1.
    revert c. induction IH as [|[name child] es Hchild _ IHes]; intros c.
    + reflexivity.
    + cbn [snd] in Hchild. unfold bind at 1.
      rewrite Hchild, scan_app. unfold returned at 1. cbn [fst snd scan].
      destruct (scan T (visits child) c) as [[e|] c'] eqn:Hs; cbn [fst snd].
      * destruct (scan_no_skip _ _ _ _ _ Hs) as [Hd _].
        rewrite Hd. cbn. destruct child; reflexivity.
      * rewrite <- IHes. destruct child; reflexivity.
  - reflexivity.
  - reflexivity.
Qed.

Lemma Walk_scan (T : int) (root : string) (n : filepath.node) (c : int) :
  filepath.Walk (countFiles_visit T) root n c = returned (scan T (visits n) c).
Proof.
  unfold filepath.Walk, bind. rewrite walk_scan. unfold returned at 1.
  destruct (scan T (visits n) c) as [[e|] c'] eqn:Hs; cbn [fst snd]; auto.
  destruct (scan_no_skip _ _ _ _ _ Hs) as [-> ->]. reflexivity.
Qed.

Lemma files_in_cons_file (vs : list visit) :
  files_in (VFile :: vs) = S (files_in vs).
Proof. reflexivity. Qed.

(** What the scan returns, read off the visits it went through: [seen]
    is the part of the list the callback was run on. *)
Lemma scan_spec (T : int) (vs : list visit) :
  in_int T ->
  forall c0 : int,
    (0 <= T -> int_min <= c0 <= T) -> (T < 0 -> c0 = 0) ->
    exists seen rest,
      vs = (seen ++ rest)%list /\
      snd (scan T vs c0) = Nat.iter (files_in seen) incr c0 /\
      match fst (scan T vs c0) with
      | None =>
          rest = [] /\ no_failure seen = true /\
          (files_in seen = 0%nat \/ snd (scan T vs c0) <= T)
      | Some e =>
          exists pre v,
            seen = (pre ++ [v])%list /\ no_failure pre = true /\
            (files_in pre = 0%nat \/ Nat.iter (files_in pre) incr c0 <= T) /\
            match v with
            | VFail msg => e = PathError msg
            | VFile =>
                snd (scan T vs c0) > T /\
                e = too_many (snd (scan T vs c0)) T /\
                snd (scan T vs c0) = (if (0 <=? T)%Z then T + 1 else 1)
            | VDir => False
            end
      end.
Proof.
  intros HT. induction vs as [|v vs IH]; intros c0 Hpos Hneg.
  - exists [], []. cbn. repeat split; auto.
  - destruct v as [| |msg].
    + (* a file *)
      cbn [scan]. destruct (incr c0 >? T) eqn:Hgt.
      * apply gtb_true in Hgt.
        exists [VFile], vs. cbn [fst snd]. split; [reflexivity|].
        split; [reflexivity|].
        exists [], VFile. split; [reflexivity|]. split; [reflexivity|].
        split; [left; reflexivity|].
        split; [exact Hgt|]. split; [reflexivity|].
        destruct (0 <=? T)%Z eqn:HT0.
        -- apply Z.leb_le in HT0. apply incr_above; auto.
        -- apply Z.leb_gt in HT0. rewrite (Hneg HT0). reflexivity.
      * apply gtb_false in Hgt.
        assert (H0 : 0 <= T).
        { destruct (Z.le_gt_cases 0 T) as [|Hlt]; [assumption|].
          rewrite (Hneg Hlt) in Hgt. change (incr 0) with 1 in Hgt. lia. }
        destruct (IH (incr c0)) as (seen & rest & -> & Hc & Hr).
        { intros _. pose proof (incr_in_int c0) as Hi. unfold in_int in Hi. lia. }
        { lia. }
        exists (VFile :: seen), rest. split; [reflexivity|].
        split.
        { rewrite Hc, files_in_cons_file, Nat.iter_succ_r. reflexivity. }
        destruct (fst (scan T (seen ++ rest) (incr c0))) as [e|].
        -- destruct Hr as (pre & v & -> & Hpre & Hle & Hv).
           exists (VFile :: pre), v. repeat split; auto.
           right. rewrite files_in_cons_file, Nat.iter_succ_r.
           destruct Hle as [Hz|Hle]; [|exact Hle].
           rewrite Hz. exact Hgt.
        -- destruct Hr as (-> & Hnf & Hle). repeat split; auto.
           right. destruct Hle as [Hz|Hle]; [|exact Hle].
           rewrite Hc, Hz. exact Hgt.
    + (* a directory *)
      cbn [scan]. destruct (IH c0 Hpos Hneg) as (seen & rest & -> & Hc & Hr).
      exists (VDir :: seen), rest. split; [reflexivity|].
      split; [exact Hc|].
      destruct (fst (scan T (seen ++ rest) c0)) as [e|].
      * destruct Hr as (pre & v & -> & Hpre & Hle & Hv).
        exists (VDir :: pre), v. auto.
      * exact Hr.
    + (* an I/O failure *)
      exists [VFail msg], vs. cbn. split; [reflexivity|]. split; [reflexivity|].
      exists [], (VFail msg). auto.
Qed.

(** Directories before the first file or failure do not change the scan. *)
Lemma scan_skip_dirs (T : int) (pre rest : list visit) (c : int) :
  files_in pre = 0%nat -> no_failure pre = true ->
  scan T (pre ++ rest) c = scan T rest c.
Proof.
  induction pre as [|v pre IH]; intros Hf Hn; [reflexivity|].
  destruct v; cbn in *; try discriminate. auto.
Qed.

(** The scan stops at the first I/O failure when no file comes before. *)
Lemma scan_first_failure (T : int) (pre : list visit) (c : int) :
  files_in pre = 0%nat -> no_failure pre = false ->
  exists msg, In (VFail msg) pre /\ scan T pre c = (Some (PathError msg), c).
Proof.
  induction pre as [|v pre IH]; intros Hf Hn; [discriminate|].
  destruct v as [| |msg]; cbn in *; try discriminate.
  - destruct (IH Hf Hn) as (msg & Hin & Hs). eauto.
  - eauto.
Qed.

(** A list with a file in it splits at its first file. *)
Lemma first_file (vs : list visit) :
  (0 < files_in vs)%nat ->
  exists pre post, vs = (pre ++ VFile :: post)%list /\ files_in pre = 0%nat.
Proof.
  induction vs as [|v vs IH]; cbn; [lia|].
  destruct v as [| |msg]; intros Hpos.
  - exists [], vs. auto.
  - destruct (IH Hpos) as (pre & post & -> & Hf). exists (VDir :: pre), post. auto.
  - destruct (IH Hpos) as (pre & post & -> & Hf). exists (VFail msg :: pre), post. auto.
Qed.

(* ===================================================================== *)
(** ** Steps of a computation *)
(* ===================================================================== *)

Lemma bind_ret {S A B} (m : M S A) (k : A -> M S B) (s s' : S) (a : A) :
  m s = (Ret a, s') -> bind m k s = k a s'.
Proof. intros Hm. unfold bind. now rewrite Hm. Qed.

Lemma bind_panic {S A B} (m : M S A) (k : A -> M S B) (s s' : S) (e : error) :
  m s = (Panic e, s') -> bind m k s = (Panic e, s').
Proof. intros Hm. unfold bind. now rewrite Hm. Qed.

(* ===================================================================== *)
(** ** The program over any host *)
(* ===================================================================== *)

Section Correctness.
Context {W : Type} `{HW : Host W}.

(* ===================================================================== *)
(** ** The file counter *)
(* ===================================================================== *)

Lemma countFiles_scan (rootDir : string) (s : state) :
  countFiles rootDir s =
  let r := scan (MaxFiles (opts s)) (visits (fs_tree rootDir (world s))) 0 in
  (Ret (snd r, fst r), s).
Proof.
  unfold countFiles. rewrite Walk_scan. reflexivity.
Qed.

(** C2, amended.  [countFiles] returns, leaves the process as it was, and
    its counter took one increment for each non-directory entry the
    callback was run on.  The error is non-nil exactly when the last
    entry visited was handed over with an I/O error, or was a
    non-directory entry whose increment took the counter above the
    threshold; the walk stops there, the entries after it are not
    visited.  In the threshold case the count returned is the threshold
    plus one when the threshold is not negative and 1 when it is. *)
Theorem countFiles_spec (rootDir : string) (s : state) :
  in_int (MaxFiles (opts s)) ->
  exists seen rest fileCount err,
    visits (fs_tree rootDir (world s)) = (seen ++ rest)%list /\
    countFiles rootDir s = (Ret (fileCount, err), s) /\
    fileCount = Nat.iter (files_in seen) incr 0 /\
    walk_ends (MaxFiles (opts s)) seen rest fileCount err.
Proof.
  intros HT.
  destruct (scan_spec (MaxFiles (opts s)) (visits (fs_tree rootDir (world s))) HT 0)
    as (seen & rest & Hsplit & Hc & Hr).
  { unfold int_min. lia. }
  { reflexivity. }
  rewrite countFiles_scan. cbn zeta.
  destruct (scan (MaxFiles (opts s)) (visits (fs_tree rootDir (world s))) 0)
    as [err fileCount].
  cbn [fst snd] in *.
  exists seen, rest, fileCount, err.
  split; [exact Hsplit|]. split; [reflexivity|]. split; [exact Hc|].
  unfold walk_ends. destruct err; exact Hr.
Qed.

(** C10, amended.  With a threshold of zero or less, a tree that holds a
    non-directory entry always makes [countFiles] return an error, and
    never lets the walk past the first such entry: the error is the
    threshold error, with count 1, made on that entry, unless an I/O
    failure comes earlier in the walk, which is then returned with
    count 0. *)
Theorem countFiles_nonpositive_limit (rootDir : string) (s : state) :
  in_int (MaxFiles (opts s)) ->
  MaxFiles (opts s) <= 0 ->
  (0 < files_in (visits (fs_tree rootDir (world s))))%nat ->
  exists pre post,
    visits (fs_tree rootDir (world s)) = (pre ++ VFile :: post)%list /\
    files_in pre = 0%nat /\
    (no_failure pre = true ->
     countFiles rootDir s = (Ret (1, Some (too_many 1 (MaxFiles (opts s)))), s)) /\
    (no_failure pre = false ->
     exists msg, In (VFail msg) pre /\
                 countFiles rootDir s = (Ret (0, Some (PathError msg)), s)).
Proof.
  intros HT Hle Hpos.
  destruct (first_file _ Hpos) as (pre & post & Hsplit & Hf).
  exists pre, post. split; [exact Hsplit|]. split; [exact Hf|].
  rewrite countFiles_scan, Hsplit. cbn zeta. split.
  - intros Hn. rewrite scan_skip_dirs by assumption. cbn [scan].
    change (incr 0) with 1.
    assert (Hgt : (1 >? MaxFiles (opts s)) = true) by (apply gtb_true; lia).
    rewrite Hgt. reflexivity.
  - intros Hn. destruct (scan_first_failure (MaxFiles (opts s)) pre 0 Hf Hn)
      as (msg & Hin & Hs).
    exists msg. split; [exact Hin|].
    rewrite scan_app, Hs. reflexivity.
Qed.

(* ===================================================================== *)
(** ** The config loader *)
(* ===================================================================== *)

Lemma append_empty_r (s : string) : s ++ "" = s.
Proof.
  induction s as [|c s IH]; [reflexivity|].
  change (String c s ++ "") with (String c (s ++ "")). now f_equal.
Qed.

Lemma append_empty_l (s : string) : "" ++ s = s.
Proof. reflexivity. Qed.

Lemma Sprintf_plain (pre format : string) (args : list fmt.arg) :
  fmt.plain pre = true ->
  fmt.Sprintf (pre ++ format) args = pre ++ fmt.Sprintf format args.
Proof.
  induction pre as [|c pre IH]; intros Hp; [reflexivity|].
  cbn in Hp. apply andb_prop in Hp as [Hc Hp].
  change (String c pre ++ format) with (String c (pre ++ format)).
  cbn [fmt.Sprintf]. apply negb_true_iff in Hc. rewrite Hc, IH by assumption.
  reflexivity.
Qed.

(** [fmt.Errorf] with a text and one trailing [%v]. *)
Lemma Errorf_wrap (pre : string) (e : error) :
  fmt.plain pre = true ->
  fmt.Sprintf (pre ++ "%v") [fmt.AErr e] = pre ++ Error e.
Proof.
  intros Hp. rewrite Sprintf_plain by assumption.
  cbn. now rewrite append_empty_r.
Qed.

Lemma override_value (config : ini.File) (key dflt : string) :
  (let v := ini.Key_String
              (ini.Section_Key (ini.File_Section config gitConfigUserSection) key) in
   if negb (String.eqb v "") then v else dflt) =
  override (Some (rendered config key)) dflt.
Proof.
  unfold rendered, override. cbn zeta.
  destruct (String.eqb_spec
              (ini.Key_String
                 (ini.Section_Key (ini.File_Section config gitConfigUserSection) key)) "");
    destruct (decide (_ = "")); cbn; congruence.
Qed.


Lemma configureGitUserInfo_unfold (s : state) :
  configureGitUserInfo s =
  match mymazda_ExpandTilde (GitConfig (opts s)) (world s) with
  | Err err => (Panic err, s)
  | Ok path =>
      match ini_Load path (world s) with
      | Err err => (Ret (AuthorInfo_zero, Some err), s)
      | Ok config => (Ret (resolved config, None), s)
      end
  end.
Proof.
  unfold configureGitUserInfo, readGitConfig, bind, get, look, ret, panic.
  destruct (mymazda_ExpandTilde _ _) as [path|err]; [|reflexivity].
  destruct (ini_Load path (world s)) as [config|err]; [|reflexivity].
  unfold resolved.
  rewrite <- (override_value config "name" "Your Name").
  rewrite <- (override_value config "email" "your.email@example.com").
  cbn zeta.
  destruct (negb (String.eqb _ "")); destruct (negb (String.eqb _ "")); reflexivity.
Qed.


(** C8.  [configureGitUserInfo] panics, with the error of the expansion,
    when the home-directory shorthand cannot be expanded, and [run],
    which does not recover, panics with it; in no other case does
    [configureGitUserInfo] panic: whenever the expansion succeeds it
    returns, with an identity and an error or nil. *)
Theorem configureGitUserInfo_panics (s : state) :
  match mymazda_ExpandTilde (GitConfig (opts s)) (world s) with
  | Err err => configureGitUserInfo s = (Panic err, s) /\ run s = (Panic err, s)
  | Ok _ => exists ai err, configureGitUserInfo s = (Ret (ai, err), s)
  end.
Proof.
  pose proof (configureGitUserInfo_unfold s) as Hc.
  destruct (mymazda_ExpandTilde _ _) as [path|err].
  - destruct (ini_Load path (world s)) as [config|err]; eauto.
  - split; [exact Hc|]. unfold run. now rewrite (bind_panic _ _ _ _ _ Hc).
Qed.

(** C9.  When the configuration file cannot be read,
    [configureGitUserInfo] returns the zero [AuthorInfo], empty name and
    empty email, together with the error of the read; the defaults are
    not returned. *)
Theorem configureGitUserInfo_unreadable
    (s : state) (path : string) (err : error) :
  mymazda_ExpandTilde (GitConfig (opts s)) (world s) = Ok path ->
  ini_Load path (world s) = Err err ->
  configureGitUserInfo s = (Ret ({| Name := ""; Email := "" |}, Some err), s).
Proof.
  intros Hexp Hload.
  rewrite configureGitUserInfo_unfold, Hexp, Hload. reflexivity.
Qed.

(* ===================================================================== *)
(** ** The repository state checker *)
(* ===================================================================== *)

Lemma isUnderGitControl_unfold (rootDir : string) (s : state) :
  isUnderGitControl rootDir s =
  (Ret match git_PlainOpenWithOptions rootDir {| git.DetectDotGit := true |} (world s) with
       | Ok _ => (true, None)
       | Err err =>
           if error_eqb err ErrRepositoryNotExists || error_eqb err ErrWorktreeNotProvided
           then (false, None)
           else (false, Some (fmt.Errorf "failed to open repository: %v" [fmt.AErr err]))
       end, s).
Proof.
  unfold isUnderGitControl, bind, look, ret.
  destruct (git_PlainOpenWithOptions _ _ _) as [r|err]; [reflexivity|].
  destruct (error_eqb err ErrRepositoryNotExists || error_eqb err ErrWorktreeNotProvided);
    reflexivity.
Qed.

(** C4.  [isUnderGitControl] opens the directory with the search through
    the parent directories switched on and has three outcomes: the open
    succeeds, [(true, nil)]; the open fails with
    [ErrRepositoryNotExists] or [ErrWorktreeNotProvided], [(false, nil)];
    the open fails otherwise, [(false, err)] where [err] carries the
    message of the failure.  The process is left as it was. *)
Theorem isUnderGitControl_outcomes (rootDir : string) (s : state) :
  isUnderGitControl rootDir s =
  (Ret match git_PlainOpenWithOptions rootDir {| git.DetectDotGit := true |} (world s) with
       | Ok _ => (true, None)
       | Err ErrRepositoryNotExists => (false, None)
       | Err ErrWorktreeNotProvided => (false, None)
       | Err err => (false, Some (FmtError ("failed to open repository: " ++ Error err)))
       end, s).
Proof.
  rewrite isUnderGitControl_unfold.
  destruct (git_PlainOpenWithOptions _ _ _) as [r|err]; [reflexivity|].
  unfold fmt.Errorf.
  rewrite (Errorf_wrap "failed to open repository: ") by reflexivity.
  destruct err; reflexivity.
Qed.

(* ===================================================================== *)
(** ** Counting a tree that can be walked *)
(* ===================================================================== *)

Lemma no_failure_app (vs ws : list visit) :
  no_failure (vs ++ ws) = no_failure vs && no_failure ws.
Proof. apply forallb_app. Qed.

Lemma scan_within (T : int) (vs : list visit) :
  T <= int_max -> no_failure vs = true ->
  forall c0 : int,
    0 <= c0 -> c0 + Z.of_nat (files_in vs) <= T ->
    scan T vs c0 = (None, c0 + Z.of_nat (files_in vs)).
Proof.
  intros HT. induction vs as [|v vs IH]; intros Hn c0 H0 Hle.
  - cbn. f_equal. lia.
  - destruct v as [| |msg]; cbn in Hn; try discriminate.
    + rewrite files_in_cons_file, Nat2Z.inj_succ in Hle |- *. cbn [scan].
      rewrite incr_succ by (unfold int_min; lia).
      assert (Hgt : (c0 + 1 >? T) = false) by (apply gtb_false; lia).
      rewrite Hgt, IH by (auto; lia). f_equal. lia.
    + cbn [scan]. apply IH; auto.
Qed.

Lemma scan_beyond (T : int) (vs : list visit) :
  0 <= T < int_max -> no_failure vs = true ->
  forall c0 : int,
    0 <= c0 <= T -> c0 + Z.of_nat (files_in vs) > T ->
    scan T vs c0 = (Some (too_many (T + 1) T), T + 1).
Proof.
  intros HT. induction vs as [|v vs IH]; intros Hn c0 H0 Hgt.
  - cbn in Hgt. lia.
  - destruct v as [| |msg]; cbn in Hn; try discriminate.
    + rewrite files_in_cons_file, Nat2Z.inj_succ in Hgt. cbn [scan].
      rewrite incr_succ by (unfold int_min; lia).
      destruct (c0 + 1 >? T) eqn:Hc.
      * apply gtb_true in Hc. replace (c0 + 1) with (T + 1) by lia. reflexivity.
      * apply gtb_false in Hc. apply IH; auto; lia.
    + cbn [scan]. apply IH; auto.
Qed.

Lemma scan_negative (T : int) (vs : list visit) :
  T < 0 -> no_failure vs = true -> (0 < files_in vs)%nat ->
  scan T vs 0 = (Some (too_many 1 T), 1).
Proof.
  intros HT Hn Hpos.
  destruct (first_file vs Hpos) as (pre & post & -> & Hf).
  rewrite no_failure_app in Hn. apply andb_prop in Hn as [Hn _].
  rewrite scan_skip_dirs by assumption. cbn [scan]. change (incr 0) with 1.
  assert (Hgt : (1 >? T) = true) by (apply gtb_true; lia).
  now rewrite Hgt.
Qed.

Lemma countFiles_within (rootDir : string) (s : state) :
  in_int (MaxFiles (opts s)) ->
  walkable (fs_tree rootDir (world s)) ->
  file_count (fs_tree rootDir (world s)) <= MaxFiles (opts s) ->
  countFiles rootDir s = (Ret (file_count (fs_tree rootDir (world s)), None), s).
Proof.
  intros [_ HT] Hw Hle. rewrite countFiles_scan. cbn zeta.
  rewrite scan_within; auto; lia.
Qed.

(** The count at which a walkable tree with more files than the limit
    stops the walk. *)
Lemma countFiles_beyond (rootDir : string) (s : state) :
  in_int (MaxFiles (opts s)) ->
  walkable (fs_tree rootDir (world s)) ->
  MaxFiles (opts s) < file_count (fs_tree rootDir (world s)) <= int_max ->
  countFiles rootDir s =
  let n := Z.min (file_count (fs_tree rootDir (world s)))
                 (Z.max (MaxFiles (opts s)) 0 + 1) in
  if (0 <? file_count (fs_tree rootDir (world s)))%Z
  then (Ret (n, Some (too_many n (MaxFiles (opts s)))), s)
  else (Ret (0, None), s).
Proof.
  intros [HT1 HT2] Hw Hgt. rewrite countFiles_scan. cbn zeta.
  unfold file_count in *.
  set (T := MaxFiles (opts s)) in *.
  set (vs := visits (fs_tree rootDir (world s))) in *.
  destruct (0 <? Z.of_nat (files_in vs))%Z eqn:Hpos.
  - apply Z.ltb_lt in Hpos.
    destruct (Z.le_gt_cases 0 T) as [H0|H0].
    + rewrite (scan_beyond T vs) by (auto; lia).
      replace (Z.min _ _) with (T + 1) by lia. reflexivity.
    + rewrite (scan_negative T vs) by (auto; lia).
      replace (Z.min _ _) with 1 by lia. reflexivity.
  - apply Z.ltb_ge in Hpos.
    assert (Hz : files_in vs = 0%nat) by lia.
    rewrite <- (app_nil_r vs), scan_skip_dirs by assumption. reflexivity.
Qed.

(* ===================================================================== *)
(** ** The orchestrator *)
(* ===================================================================== *)

(** The run on a directory that is under version control already. *)
Lemma run_tracked (s : state) (path : string)
    (config : ini.File) (r : Repository) :
  mymazda_ExpandTilde (GitConfig (opts s)) (world s) = Ok path ->
  ini_Load path (world s) = Ok config ->
  git_PlainOpenWithOptions (RootDir (opts s)) {| git.DetectDotGit := true |}
    (world s) = Ok r ->
  run s = (Ret None,
           emit (Logged slog.LevelInfo "Directory is already under git control." [])
             (set_authorInfo (resolved config) s)).
Proof.
  intros Hexp Hload Hopen. unfold run.
  unfold bind at 1. rewrite configureGitUserInfo_unfold, Hexp, Hload.
  unfold bind at 1. cbn [modify]. unfold bind at 1. cbn [get].
  unfold bind at 1. rewrite isUnderGitControl_unfold.
  cbn [world opts set_authorInfo]. rewrite Hopen.
  reflexivity.
Qed.

Lemma initializeGitRepository_ok (rootDir : string) (s : state) (w1 : W) :
  git_PlainInit rootDir false (world s) = (None, w1) ->
  initializeGitRepository rootDir s =
  (Ret None, set_world w1 (emit (CalledPlainInit rootDir false) s)).
Proof.
  intros Hinit. unfold initializeGitRepository, PlainInit, act, bind.
  now rewrite Hinit.
Qed.

Lemma addAllFiles_ok (rootDir : string) (s : state)
    (repo : Repository) (wt : Worktree) (w2 : W) :
  git_PlainOpen rootDir (world s) = Ok repo ->
  Repository_Worktree repo (world s) = Ok wt ->
  Worktree_Add wt "." (world s) = (None, w2) ->
  addAllFiles rootDir s = (Ret None, set_world w2 (emit (CalledAdd wt ".") s)).
Proof.
  intros Hopen Hwt Hadd. unfold addAllFiles, Add, act, bind, look.
  now rewrite Hopen, Hwt, Hadd.
Qed.

Lemma commit_ok (rootDir message : string) (s : state)
    (repo : Repository) (wt : Worktree) (w3 : W) :
  git_PlainOpen rootDir (world s) = Ok repo ->
  Repository_Worktree repo (world s) = Ok wt ->
  Worktree_Commit wt message
    {| git.Author := Some {| git.Sig_Name := Name (authorInfo s);
                             git.Sig_Email := Email (authorInfo s);
                             git.Sig_When := time_Now (world s) |} |}
    (world s) = (None, w3) ->
  commit rootDir message s =
  (Ret None,
   set_world w3
     (emit (CalledCommit wt message
              {| git.Author := Some {| git.Sig_Name := Name (authorInfo s);
                                       git.Sig_Email := Email (authorInfo s);
                                       git.Sig_When := time_Now (world s) |} |}) s)).
Proof.
  intros Hopen Hwt Hcommit. unfold commit, Commit, act, bind, look, get.
  now rewrite Hopen, Hwt, Hcommit.
Qed.

(** The run up to the file counter, on a directory that is not under
    version control and in which the repository can be made. *)
Lemma run_until_count (s : state) (ai : AuthorInfo) (e : error) (w1 : W) :
  configureGitUserInfo s = (Ret (ai, None), s) ->
  git_PlainOpenWithOptions (RootDir (opts s)) {| git.DetectDotGit := true |}
    (world s) = Err e ->
  e = ErrRepositoryNotExists \/ e = ErrWorktreeNotProvided ->
  git_PlainInit (RootDir (opts s)) false (world s) = (None, w1) ->
  let s1 := set_world w1
              (emit (CalledPlainInit (RootDir (opts s)) false)
                 (emit (Logged slog.LevelInfo "Initializing git repository..." [])
                    (set_authorInfo ai s))) in
  run s =
  match countFiles (RootDir (opts s)) s1 with
  | (Panic p, s2) => (Panic p, s2)
  | (Ret (fileCount, Some err), s2) =>
      (Ret (Some (fmt.Errorf "failed to count files: %v" [fmt.AErr err])), s2)
  | (Ret (fileCount, None), s2) =>
      if fileCount >? MaxFiles (opts s)
      then (Ret (Some (too_many fileCount (MaxFiles (opts s)))), s2)
      else
        bind (addAllFiles (RootDir (opts s)))
          (fun err =>
             match err with
             | Some err =>
                 ret (Some (fmt.Errorf "failed to add all files: %v" [fmt.AErr err]))
             | None =>
                 bind (commit (RootDir (opts s)) "Boilerplate")
                   (fun err =>
                      match err with
                      | Some err =>
                          ret (Some (fmt.Errorf "failed to commit: %v" [fmt.AErr err]))
                      | None =>
                          bind (slog_Info "Git initialization successful." [])
                            (fun _ => ret None)
                      end)
             end) s2
  end.
Proof.
  intros Hcfg Hopen He Hinit s1. unfold run.
  rewrite (bind_ret _ _ _ _ _ Hcfg).
  unfold bind at 1. cbn [modify]. unfold bind at 1. cbn [get].
  unfold bind at 1. rewrite isUnderGitControl_unfold.
  cbn [world opts set_authorInfo]. rewrite Hopen.
  assert (Hno : error_eqb e ErrRepositoryNotExists || error_eqb e ErrWorktreeNotProvided
                = true) by (destruct He; subst e; reflexivity).
  rewrite Hno.
  unfold bind at 1. cbn [slog_Info modify].
  erewrite bind_ret by (apply initializeGitRepository_ok; cbn [world emit]; exact Hinit).
  fold s1. unfold bind at 1.
  destruct (countFiles (RootDir (opts s)) s1) as [[[fileCount [err|]]|p] s2];
    try reflexivity.
  destruct (fileCount >? MaxFiles (opts s)); reflexivity.
Qed.

(** C1.  When the directory is not under version control, the
    repository can be made, the walk after that counts at most
    [max-files] files, and staging and committing succeed, [run] returns
    nil and has made, in this order and nothing else besides two log
    lines: one [PlainInit] of the root, one [Add] of ["."], and one
    [Commit] with the message "Boilerplate" whose author carries the name
    and email that [configureGitUserInfo] resolved. *)
Theorem run_initial_commit (s : state) (ai : AuthorInfo) (e : error)
    (w1 w2 w3 : W) (repo1 repo2 : Repository) (wt1 wt2 : Worktree) :
  configureGitUserInfo s = (Ret (ai, None), s) ->
  git_PlainOpenWithOptions (RootDir (opts s)) {| git.DetectDotGit := true |}
    (world s) = Err e ->
  e = ErrRepositoryNotExists \/ e = ErrWorktreeNotProvided ->
  git_PlainInit (RootDir (opts s)) false (world s) = (None, w1) ->
  in_int (MaxFiles (opts s)) ->
  walkable (fs_tree (RootDir (opts s)) w1) ->
  file_count (fs_tree (RootDir (opts s)) w1) <= MaxFiles (opts s) ->
  git_PlainOpen (RootDir (opts s)) w1 = Ok repo1 ->
  Repository_Worktree repo1 w1 = Ok wt1 ->
  Worktree_Add wt1 "." w1 = (None, w2) ->
  git_PlainOpen (RootDir (opts s)) w2 = Ok repo2 ->
  Repository_Worktree repo2 w2 = Ok wt2 ->
  Worktree_Commit wt2 "Boilerplate"
    {| git.Author := Some {| git.Sig_Name := Name ai; git.Sig_Email := Email ai;
                             git.Sig_When := time_Now w2 |} |} w2 = (None, w3) ->
  exists s',
    run s = (Ret None, s') /\
    world s' = w3 /\ authorInfo s' = ai /\
    trace s' =
      (trace s ++
       [Logged slog.LevelInfo "Initializing git repository..." [];
        CalledPlainInit (RootDir (opts s)) false;
        CalledAdd wt1 ".";
        CalledCommit wt2 "Boilerplate"
          {| git.Author := Some {| git.Sig_Name := Name ai; git.Sig_Email := Email ai;
                                   git.Sig_When := time_Now w2 |} |};
        Logged slog.LevelInfo "Git initialization successful." []])%list.
Proof.
  intros Hcfg Hopen He Hinit HT Hwalk Hcount Hopen1 Hwt1 Hadd Hopen2 Hwt2 Hcommit.
  rewrite (run_until_count s ai e w1) by assumption. cbn zeta.
  rewrite countFiles_within by assumption.
  assert (Hle : (file_count (fs_tree (RootDir (opts s)) w1) >? MaxFiles (opts s)) = false)
    by (apply gtb_false; exact Hcount).
  cbn [world set_world] in Hle |- *. rewrite Hle.
  erewrite bind_ret by (eapply addAllFiles_ok; cbn [world set_world]; eassumption).
  cbv beta iota.
  erewrite bind_ret by (eapply commit_ok; cbn [world set_world authorInfo emit set_authorInfo];
                        eassumption).
  eexists. split; [reflexivity|].
  cbn [world authorInfo trace set_world emit set_authorInfo].
  repeat split. repeat rewrite <- app_assoc. reflexivity.
Qed.

(** C3, amended.  When the run gets as far as the file counter (the
    identity is resolved, the directory is not under version control,
    the repository is made) and the tree, walked without I/O failure,
    holds more files than [max-files], [run] returns an error after the
    initialisation and without a call to [Add] or [Commit].  The message
    gives the configured limit and the count at which the run stopped:
    the limit plus one for a limit that is not negative, 1 for a
    negative one (0 when the tree has no file at all and the check after
    the walk refuses it); it is the total only when these agree. *)
Theorem run_over_limit (s : state) (ai : AuthorInfo) (e : error) (w1 : W) :
  configureGitUserInfo s = (Ret (ai, None), s) ->
  git_PlainOpenWithOptions (RootDir (opts s)) {| git.DetectDotGit := true |}
    (world s) = Err e ->
  e = ErrRepositoryNotExists \/ e = ErrWorktreeNotProvided ->
  git_PlainInit (RootDir (opts s)) false (world s) = (None, w1) ->
  in_int (MaxFiles (opts s)) ->
  walkable (fs_tree (RootDir (opts s)) w1) ->
  MaxFiles (opts s) < file_count (fs_tree (RootDir (opts s)) w1) <= int_max ->
  exists err s',
    run s = (Ret (Some err), s') /\
    world s' = w1 /\
    trace s' =
      (trace s ++
       [Logged slog.LevelInfo "Initializing git repository..." [];
        CalledPlainInit (RootDir (opts s)) false])%list /\
    Error err =
      (if (0 <? file_count (fs_tree (RootDir (opts s)) w1))%Z
       then "failed to count files: " else "") ++
      fmt.Sprintf maxFilesErrorMessage
        [fmt.AInt (Z.min (file_count (fs_tree (RootDir (opts s)) w1))
                         (Z.max (MaxFiles (opts s)) 0 + 1));
         fmt.AInt (MaxFiles (opts s))].
Proof.
  intros Hcfg Hopen He Hinit HT Hwalk Hcount.
  rewrite (run_until_count s ai e w1) by assumption. cbn zeta.
  rewrite countFiles_beyond by assumption.
  cbn [world set_world opts emit set_authorInfo].
  destruct (0 <? file_count (fs_tree (RootDir (opts s)) w1))%Z eqn:Hpos.
  - eexists. eexists. split; [reflexivity|].
    cbn [world trace set_world emit set_authorInfo].
    split; [reflexivity|]. split; [now rewrite <- app_assoc|].
    unfold fmt.Errorf. cbn [Error].
    rewrite (Errorf_wrap "failed to count files: ") by reflexivity.
    reflexivity.
  - apply Z.ltb_ge in Hpos.
    assert (Hz : file_count (fs_tree (RootDir (opts s)) w1) = 0)
      by (unfold file_count in *; lia).
    rewrite Hz in Hcount |- *.
    assert (Hgt : (0 >? MaxFiles (opts s)) = true) by (apply gtb_true; lia).
    rewrite Hgt.
    eexists. eexists. split; [reflexivity|].
    cbn [world trace set_world emit set_authorInfo].
    split; [reflexivity|]. split; [now rewrite <- app_assoc|].
    replace (Z.min 0 (Z.max (MaxFiles (opts s)) 0 + 1)) with 0 by lia.
    unfold too_many, fmt.Errorf. cbn [Error].
    symmetry. apply append_empty_l.
Qed.

(** One run of the tool on a directory that is under version control. *)
Lemma Execute_tracked_once (s : state) (o1 o2 o3 : Opts)
    (path : string) (config : ini.File) (r : Repository) :
  flags_ParseArgs (opts s) (os_Args (world s)) = (o1, None) ->
  host_setLogLevel o1 (world s) = (None, o2) ->
  host_setupLogger o2 (world s) = (None, o3) ->
  mymazda_ExpandTilde (GitConfig o3) (world s) = Ok path ->
  ini_Load path (world s) = Ok config ->
  git_PlainOpenWithOptions (RootDir o3) {| git.DetectDotGit := true |} (world s) = Ok r ->
  exists s1,
    Execute s = (Ret 0, s1) /\ world s1 = world s /\
    trace s1 =
      (trace s ++
       [Logged slog.LevelInfo "Directory is already under git control." []])%list.
Proof.
  intros Hparse Hlevel Hlogger Hexp Hload Hopen.
  unfold Execute.
  unfold bind at 1. unfold parseFlags. rewrite Hparse.
  unfold bind at 1. unfold setLogLevel. cbn [opts world set_opts]. rewrite Hlevel.
  unfold bind at 1. unfold setupLogger. cbn [opts world set_opts]. rewrite Hlogger.
  erewrite bind_ret by (eapply run_tracked; cbn [opts world set_opts]; eassumption).
  eexists. split; [reflexivity|]. split; reflexivity.
Qed.

(** C6, amended.  When flag parsing, log set-up and the loading of the
    configuration succeed, the tool run on a directory that is under
    version control exits with code 0, leaves the world as it was and
    calls neither [PlainInit] nor [Add] nor [Commit]: it logs one line.
    A later run with the same options in the world the first run left
    does the same. *)
Theorem Execute_tracked (s : state) (o1 o2 o3 : Opts)
    (path : string) (config : ini.File) (r : Repository) :
  flags_ParseArgs (opts s) (os_Args (world s)) = (o1, None) ->
  host_setLogLevel o1 (world s) = (None, o2) ->
  host_setupLogger o2 (world s) = (None, o3) ->
  mymazda_ExpandTilde (GitConfig o3) (world s) = Ok path ->
  ini_Load path (world s) = Ok config ->
  git_PlainOpenWithOptions (RootDir o3) {| git.DetectDotGit := true |} (world s) = Ok r ->
  exists s1,
    Execute s = (Ret 0, s1) /\ world s1 = world s /\
    trace s1 =
      (trace s ++
       [Logged slog.LevelInfo "Directory is already under git control." []])%list /\
    writes (trace s1) = writes (trace s) /\
    forall s' : state,
      opts s' = opts s -> world s' = world s1 ->
      exists s2,
        Execute s' = (Ret 0, s2) /\ world s2 = world s1 /\
        writes (trace s2) = writes (trace s').
Proof.
  intros Hparse Hlevel Hlogger Hexp Hload Hopen.
  destruct (Execute_tracked_once s o1 o2 o3 path config r) as (s1 & Hrun & Hw & Ht);
    try assumption.
  exists s1. split; [exact Hrun|]. split; [exact Hw|]. split; [exact Ht|].
  split.
  - rewrite Ht. unfold writes. rewrite List.filter_app. cbn. apply app_nil_r.
  - intros s' Ho Hw'. rewrite Hw in Hw'.
    destruct (Execute_tracked_once s' o1 o2 o3 path config r) as (s2 & Hrun2 & Hw2 & Ht2);
      try (rewrite ?Ho, ?Hw'; assumption).
    exists s2. split; [exact Hrun2|]. split; [congruence|].
    rewrite Ht2. unfold writes. rewrite List.filter_app. cbn. apply app_nil_r.
Qed.

(** C7.  [Execute] returns 0 exactly when flag parsing, the two steps of
    the log set-up and [run] all return nil (a run on a tracked
    directory returns nil too); it returns 1 when flag parsing fails,
    when either step of the log set-up fails, and when [run] returns an
    error, which it then logs at level Error under the key "error".  It
    returns no other code. *)
Theorem Execute_exit_code (s : state) :
  ((exists s', Execute s = (Ret 0, s')) <->
   (exists s1 s2 s3 s4,
      parseFlags s = (Ret None, s1) /\ setLogLevel s1 = (Ret None, s2) /\
      setupLogger s2 = (Ret None, s3) /\ run s3 = (Ret None, s4))) /\
  (forall e s1,
     parseFlags s = (Ret (Some e), s1) -> Execute s = (Ret 1, s1)) /\
  (forall e s1 s2,
     parseFlags s = (Ret None, s1) -> setLogLevel s1 = (Ret (Some e), s2) ->
     Execute s = (Ret 1, s2)) /\
  (forall e s1 s2 s3,
     parseFlags s = (Ret None, s1) -> setLogLevel s1 = (Ret None, s2) ->
     setupLogger s2 = (Ret (Some e), s3) ->
     Execute s = (Ret 1, s3)) /\
  (forall e s1 s2 s3 s4,
     parseFlags s = (Ret None, s1) -> setLogLevel s1 = (Ret None, s2) ->
     setupLogger s2 = (Ret None, s3) -> run s3 = (Ret (Some e), s4) ->
     Execute s =
     (Ret 1, emit (Logged slog.LevelError "run failed" [("error", fmt.AErr e)]) s4)) /\
  (forall c s', Execute s = (Ret c, s') -> c = 0 \/ c = 1).
Proof.
  split; [|split; [|split; [|split; [|split]]]].
  - unfold Execute, bind. split.
    + intros [s' Hex].
      destruct (parseFlags s) as [[[e1|]|p1] s1] eqn:E1; try discriminate.
      destruct (setLogLevel s1) as [[[e2|]|p2] s2] eqn:E2; try discriminate.
      destruct (setupLogger s2) as [[[e3|]|p3] s3] eqn:E3; try discriminate.
      destruct (run s3) as [[[e4|]|p4] s4] eqn:E4; try discriminate.
      exists s1, s2, s3, s4. auto.
    + intros (s1 & s2 & s3 & s4 & -> & -> & -> & ->). eauto.
  - intros e s1 H1. unfold Execute. now rewrite (bind_ret _ _ _ _ _ H1).
  - intros e s1 s2 H1 H2. unfold Execute.
    now rewrite (bind_ret _ _ _ _ _ H1), (bind_ret _ _ _ _ _ H2).
  - intros e s1 s2 s3 H1 H2 H3. unfold Execute.
    now rewrite (bind_ret _ _ _ _ _ H1), (bind_ret _ _ _ _ _ H2), (bind_ret _ _ _ _ _ H3).
  - intros e s1 s2 s3 s4 H1 H2 H3 H4. unfold Execute.
    now rewrite (bind_ret _ _ _ _ _ H1), (bind_ret _ _ _ _ _ H2),
      (bind_ret _ _ _ _ _ H3), (bind_ret _ _ _ _ _ H4).
  - intros c s'. unfold Execute, bind.
    destruct (parseFlags s) as [[[e1|]|p1] s1]; try discriminate;
      [intros [= <- _]; auto|].
    destruct (setLogLevel s1) as [[[e2|]|p2] s2]; try discriminate;
      [intros [= <- _]; auto|].
    destruct (setupLogger s2) as [[[e3|]|p3] s3]; try discriminate;
      [intros [= <- _]; auto|].
    destruct (run s3) as [[[e4|]|p4] s4]; try discriminate;
      intros [= <- _]; auto.
Qed.

End Correctness.

(* ===================================================================== *)
(** ** The theorems at work in the small world *)
(* ===================================================================== *)

Lemma in_int_small (z : Z) : -1000 <= z <= 1000 -> in_int z.
Proof. unfold in_int, int_min, int_max. lia. Qed.

(** A fresh directory with three files, the default limit of 100: the
    walk after the initialisation counts five files, the run commits. *)
Lemma run_initial_commit_witness :
  let s := Sim.start Sim.defaults Sim.fresh in
  let ai := {| Name := "Ada"; Email := "ada@example.org" |} in
  let author := {| git.Author := Some {| git.Sig_Name := "Ada";
                                         git.Sig_Email := "ada@example.org";
                                         git.Sig_When := 1700000000 |} |} in
  let w1 := snd (Sim.Init "." false Sim.fresh) in
  let w2 := snd (Sim.Stage "." "." w1) in
  let w3 := snd (Sim.Record_ "." "Boilerplate" author w2) in
  file_count (Sim.tree w1) = 5 /\
  exists s' : Sim.proc,
    run s = (Ret None, s') /\
    world s' = w3 /\ authorInfo s' = ai /\
    trace s' =
      [Logged slog.LevelInfo "Initializing git repository..." [];
       CalledPlainInit "." false;
       CalledAdd (Sim.worktree ".") ".";
       CalledCommit (Sim.worktree ".") "Boilerplate" author;
       Logged slog.LevelInfo "Git initialization successful." []].
Proof.
  cbv zeta. split; [reflexivity|].
  apply (run_initial_commit (Sim.start Sim.defaults Sim.fresh)
           {| Name := "Ada"; Email := "ada@example.org" |} ErrRepositoryNotExists
           (snd (Sim.Init "." false Sim.fresh))
           (snd (Sim.Stage "." "." (snd (Sim.Init "." false Sim.fresh))))
           _ "." "." "." ".").
  - reflexivity.
  - reflexivity.
  - left; reflexivity.
  - reflexivity.
  - apply in_int_small. cbn. lia.
  - reflexivity.
  - vm_compute. discriminate.
  - reflexivity.
  - reflexivity.
  - reflexivity.
  - reflexivity.
  - reflexivity.
  - reflexivity.
Defined.

(** The same directory with a limit of 1: the walk stops at the second
    file. *)
Lemma countFiles_spec_witness :
  let s := Sim.start (Sim.with_MaxFiles 1 Sim.defaults) Sim.fresh in
  in_int 1 /\
  exists seen rest fileCount err,
    visits (Sim.tree Sim.fresh) = (seen ++ rest)%list /\
    countFiles "." s = (Ret (fileCount, err), s) /\
    fileCount = Nat.iter (files_in seen) incr 0 /\
    walk_ends 1 seen rest fileCount err.
Proof.
  cbv zeta. split.
  - apply in_int_small. lia.
  - apply (countFiles_spec "." (Sim.start (Sim.with_MaxFiles 1 Sim.defaults) Sim.fresh)).
    apply in_int_small. cbn. lia.
Defined.

(** A limit of zero and a directory with one file in it. *)
Lemma countFiles_nonpositive_limit_witness :
  let s := Sim.start (Sim.with_MaxFiles 0 Sim.defaults)
             (Sim.with_tree Sim.one_file Sim.fresh) in
  exists pre post,
    visits Sim.one_file = (pre ++ VFile :: post)%list /\
    files_in pre = 0%nat /\
    (no_failure pre = true ->
     countFiles "." s = (Ret (1, Some (too_many 1 0)), s)) /\
    (no_failure pre = false ->
     exists msg, In (VFail msg) pre /\
                 countFiles "." s = (Ret (0, Some (PathError msg)), s)).
Proof.
  cbv zeta.
  apply (countFiles_nonpositive_limit "."
           (Sim.start (Sim.with_MaxFiles 0 Sim.defaults)
              (Sim.with_tree Sim.one_file Sim.fresh))).
  - apply in_int_small. cbn. lia.
  - cbn. lia.
  - cbn. lia.
Defined.

(** The run with a limit of 1 stops after the initialisation. *)
Lemma run_over_limit_witness :
  let s := Sim.start (Sim.with_MaxFiles 1 Sim.defaults) Sim.fresh in
  let w1 := snd (Sim.Init "." false Sim.fresh) in
  exists (err : error) (s' : Sim.proc),
    run s = (Ret (Some err), s') /\
    world s' = w1 /\
    trace s' =
      [Logged slog.LevelInfo "Initializing git repository..." [];
       CalledPlainInit "." false] /\
    Error err = "failed to count files: too many files (2), limit is 1".
Proof.
  cbv zeta.
  apply (run_over_limit (Sim.start (Sim.with_MaxFiles 1 Sim.defaults) Sim.fresh)
           {| Name := "Ada"; Email := "ada@example.org" |} ErrRepositoryNotExists
           (snd (Sim.Init "." false Sim.fresh))).
  - reflexivity.
  - reflexivity.
  - left; reflexivity.
  - reflexivity.
  - apply in_int_small. cbn. lia.
  - reflexivity.
  - vm_compute. split; [reflexivity|discriminate].
Defined.



(** No configuration file to read: the zero value and the error. *)
Lemma configureGitUserInfo_unreadable_witness :
  let s := Sim.start Sim.defaults Sim.tracked_noconfig in
  configureGitUserInfo s =
  (Ret ({| Name := ""; Email := "" |},
        Some (PathError "open /home/ada/.gitconfig: no such file or directory")), s).
Proof.
  cbv zeta.
  apply (configureGitUserInfo_unreadable
           (Sim.start Sim.defaults Sim.tracked_noconfig) "/home/ada/.gitconfig").
  - reflexivity.
  - reflexivity.
Defined.

(** The tool on a directory that holds a repository. *)
Lemma Execute_tracked_witness :
  let s := Sim.start Sim.defaults Sim.tracked in
  exists s1 : Sim.proc,
    Execute s = (Ret 0, s1) /\ world s1 = Sim.tracked /\
    trace s1 =
      [Logged slog.LevelInfo "Directory is already under git control." []] /\
    writes (trace s1) = [] /\
    forall s' : Sim.proc,
      opts s' = Sim.defaults -> world s' = world s1 ->
      exists s2,
        Execute s' = (Ret 0, s2) /\ world s2 = world s1 /\
        writes (trace s2) = writes (trace s').
Proof.
  cbv zeta.
  apply (Execute_tracked (Sim.start Sim.defaults Sim.tracked)
           Sim.defaults Sim.defaults Sim.defaults
           "/home/ada/.gitconfig" Sim.gitconfig ".").
  - reflexivity.
  - reflexivity.
  - reflexivity.
  - reflexivity.
  - reflexivity.
  - reflexivity.
Defined.

(** C2 as stated does not hold for a negative threshold.  With a limit
    of -2 and one file the count returned with the error is 1, which is
    not the limit plus one; with a limit of -1 and an empty directory the
    counter, 0, is above the limit and no error is returned. *)
Lemma countFiles_negative_threshold :
  let s := Sim.start (Sim.with_MaxFiles (-2) Sim.defaults)
             (Sim.with_tree Sim.one_file Sim.fresh) in
  let s0 := Sim.start (Sim.with_MaxFiles (-1) Sim.defaults)
              (Sim.with_tree (filepath.Dir []) Sim.fresh) in
  (countFiles "." s = (Ret (1, Some (too_many 1 (-2))), s) /\ 1 <> -2 + 1) /\
  (countFiles "." s0 = (Ret (0, None), s0) /\ 0 > -1).
Proof.
  cbv zeta. repeat split; try reflexivity. discriminate.
Qed.

(** C3 as stated does not hold: with a limit of 1 and three files in the
    directory (five once the repository is made) the message names the
    count 2 at which the walk stopped, and neither 3 nor 5. *)
Lemma run_reports_count_at_stop :
  let s := Sim.start (Sim.with_MaxFiles 1 Sim.defaults) Sim.fresh in
  let msg := "failed to count files: too many files (2), limit is 1" in
  fst (run s) = Ret (Some (FmtError msg)) /\
  file_count (Sim.tree Sim.fresh) = 3 /\
  file_count (Sim.tree (world (snd (run s)))) = 5 /\
  mentions msg (fmt.Sprintf maxFilesErrorMessage [fmt.AInt 3; fmt.AInt 1]) = false /\
  mentions msg (fmt.Sprintf maxFilesErrorMessage [fmt.AInt 5; fmt.AInt 1]) = false.
Proof.
  cbv zeta. repeat split; vm_compute; reflexivity.
Qed.

(** C6 as stated does not hold: on a directory that is under version
    control, with no configuration file to read, the tool exits with
    code 1. *)
Lemma Execute_tracked_unreadable_config :
  let s := Sim.start Sim.defaults Sim.tracked_noconfig in
  isUnderGitControl "." s = (Ret (true, None), s) /\
  fst (Execute s) = Ret 1 /\
  trace (snd (Execute s)) =
    [Logged slog.LevelError "run failed"
       [("error",
         fmt.AErr (FmtError
           "failed to configure git user info: open /home/ada/.gitconfig: no such file or directory"))]].
Proof.
  cbv zeta. repeat split; vm_compute; reflexivity.
Qed.

(** C10 as stated does not hold: with a limit of 0, in a directory whose
    first entry cannot be read and whose second is a file, the error
    returned is the I/O error of the first entry, with count 0; the file
    is never reached. *)
Lemma countFiles_failure_before_file :
  let s := Sim.start (Sim.with_MaxFiles 0 Sim.defaults)
             (Sim.with_tree Sim.locked_then_file Sim.fresh) in
  files_in (visits Sim.locked_then_file) = 1%nat /\
  countFiles "." s =
    (Ret (0, Some (PathError "open locked: permission denied")), s) /\
  PathError "open locked: permission denied" <> too_many 1 0.
Proof.
  cbv zeta. repeat split; try reflexivity. discriminate.
Qed.

(** The count returned at the limit is not the number of files. *)
Example countFiles_stops_early :
  let s := Sim.start (Sim.with_MaxFiles 1 Sim.defaults) Sim.fresh in
  countFiles "." s = (Ret (2, Some (too_many 2 1)), s) /\
  file_count (Sim.tree Sim.fresh) = 3.
Proof. cbv zeta. split; reflexivity. Qed.

(** The root itself may be a file. *)
Example countFiles_root_is_file :
  let s := Sim.start (Sim.with_MaxFiles 0 Sim.defaults)
             (Sim.with_tree filepath.NonDir Sim.fresh) in
  countFiles "." s = (Ret (1, Some (too_many 1 0)), s).
Proof. reflexivity. Qed.

(** Without a home directory the tool does not return. *)
Example Execute_homeless_panics :
  fst (Execute (Sim.start Sim.defaults Sim.homeless)) =
  Panic (LibError "user: Current requires cgo or $USER, $HOME set in environment").
Proof. reflexivity. Qed.

(** An unknown flag: exit code 1, nothing logged, nothing written. *)
Example Execute_bad_flag :
  let w := Sim.with_args ["greenleeks"; "--bogus"] Sim.fresh in
  fst (Execute (Sim.start Sim.defaults w)) = Ret 1 /\
  trace (snd (Execute (Sim.start Sim.defaults w))) = [] /\
  world (snd (Execute (Sim.start Sim.defaults w))) = w.
Proof. cbv zeta. repeat split; reflexivity. Qed.

(** The counter wraps at the end of the range of [int]. *)
Example incr_wraps : incr int_max = int_min /\ incr 41 = 42.
Proof. split; reflexivity. Qed.

(* ===================================================================== *)
(** ** More on the file counter *)
(* ===================================================================== *)

(** Without wrap-around the counter is the number of increments. *)
Lemma iter_incr (n : nat) :
  Z.of_nat n <= int_max -> Nat.iter n incr 0 = Z.of_nat n.
Proof.
  induction n as [|n IH]; intros Hn; [reflexivity|].
  rewrite Nat2Z.inj_succ in Hn |- *. rewrite Nat.iter_succ.
  rewrite IH by lia. apply incr_succ. unfold int_min. lia.
Qed.

(** A scan that ends without error went through the whole list. *)
Lemma scan_none (T : int) (vs : list visit) :
  forall c0 c : int,
    scan T vs c0 = (None, c) ->
    no_failure vs = true /\
    c = Nat.iter (files_in vs) incr c0 /\
    (files_in vs = 0%nat \/ c <= T).
Proof.
  induction vs as [|v vs IH]; intros c0 c Hs.
  - injection Hs as <-. cbn. auto.
  - destruct v as [| |msg]; cbn [scan] in Hs.
    + destruct (incr c0 >? T) eqn:Hgt; [discriminate|].
      apply gtb_false in Hgt.
      destruct (IH _ _ Hs) as (Hn & Hc & Hle).
      split; [exact Hn|]. split.
      * rewrite files_in_cons_file, Nat.iter_succ_r. exact Hc.
      * right. destruct Hle as [Hz|Hle]; [|exact Hle].
        rewrite Hc, Hz. exact Hgt.
    + destruct (IH _ _ Hs) as (Hn & Hc & Hle). auto.
    + discriminate.
Qed.

(** Raising the limit keeps a scan that ended without error as it is. *)
Lemma scan_none_mono (T T' : int) (vs : list visit) :
  T <= T' ->
  forall c0 c : int, scan T vs c0 = (None, c) -> scan T' vs c0 = (None, c).
Proof.
  intros HT. induction vs as [|v vs IH]; intros c0 c Hs; [exact Hs|].
  destruct v as [| |msg]; cbn [scan] in Hs |- *.
  - destruct (incr c0 >? T) eqn:Hgt; [discriminate|].
    apply gtb_false in Hgt.
    assert (Hgt' : (incr c0 >? T') = false) by (apply gtb_false; lia).
    rewrite Hgt'. auto.
  - auto.
  - discriminate.
Qed.

(** The scan, counted without wrap-around, and the bound on its count. *)
Lemma scan_bounded (T : int) (vs : list visit) :
  in_int T -> T < int_max ->
  forall c0 : int,
    (0 <= T -> 0 <= c0 <= T) -> (T < 0 -> c0 = 0) ->
    exists seen rest,
      vs = (seen ++ rest)%list /\
      snd (scan T vs c0) = c0 + Z.of_nat (files_in seen) /\
      snd (scan T vs c0) <= Z.max T 0 + 1 /\
      (fst (scan T vs c0) = None -> rest = []).
Proof.
  intros HT Hmax. induction vs as [|v vs IH]; intros c0 Hpos Hneg.
  - exists [], []. cbn. repeat split; lia.
  - destruct v as [| |msg]; cbn [scan].
    + assert (Hc0 : 0 <= c0 <= Z.max T 0) by lia.
      rewrite incr_succ by (unfold int_min, int_max in *; lia).
      destruct (c0 + 1 >? T) eqn:Hgt.
      * exists [VFile], vs. cbn. repeat split; try lia. discriminate.
      * apply gtb_false in Hgt.
        destruct (IH (c0 + 1)) as (seen & rest & -> & Hc & Hle & Hr); [lia|lia|].
        exists (VFile :: seen), rest. split; [reflexivity|].
        rewrite files_in_cons_file, Nat2Z.inj_succ. repeat split; auto; lia.
    + destruct (IH c0 Hpos Hneg) as (seen & rest & -> & Hc & Hle & Hr).
      exists (VDir :: seen), rest. auto.
    + exists [VFail msg], vs. cbn. repeat split; try lia. discriminate.
Qed.

Section Counter.
Context {W : Type} `{HW : Host W}.

(** X9.  On a tree whose number of files fits an [int], [countFiles]
    returns without error exactly when the walk meets no I/O failure and
    the tree holds at most [max-files] files, or no file at all; the
    count it then returns is the number of files of the tree. *)
Theorem countFiles_exact (rootDir : string) (s : state) :
  in_int (MaxFiles (opts s)) ->
  file_count (fs_tree rootDir (world s)) <= int_max ->
  ((exists c, countFiles rootDir s = (Ret (c, None), s)) <->
   walkable (fs_tree rootDir (world s)) /\
   (file_count (fs_tree rootDir (world s)) <= MaxFiles (opts s) \/
    file_count (fs_tree rootDir (world s)) = 0)) /\
  (forall c, countFiles rootDir s = (Ret (c, None), s) ->
             c = file_count (fs_tree rootDir (world s))).
Proof.
  intros [HT1 HT2] Hfit. rewrite countFiles_scan. cbn zeta.
  unfold walkable, file_count in *. fold (no_failure (visits (fs_tree rootDir (world s)))).
  set (T := MaxFiles (opts s)) in *.
  set (vs := visits (fs_tree rootDir (world s))) in *.
  assert (Hsound : forall c, scan T vs 0 = (None, c) ->
                     no_failure vs = true /\ c = Z.of_nat (files_in vs) /\
                     (Z.of_nat (files_in vs) <= T \/ Z.of_nat (files_in vs) = 0)).
  { intros c Hs. destruct (scan_none T vs 0 c Hs) as (Hn & Hc & Hle).
    rewrite iter_incr in Hc by assumption. subst c.
    repeat split; auto. destruct Hle; [right|left]; lia. }
  split; [split|].
  - intros [c Hc]. destruct (scan T vs 0) as [e c'] eqn:Hs.
    cbn [fst snd] in Hc. injection Hc as -> ->.
    destruct (Hsound _ eq_refl) as (Hn & _ & Hle). auto.
  - intros [Hn [Hle|Hz]].
    + exists (0 + Z.of_nat (files_in vs)). rewrite scan_within; auto; lia.
    + exists 0. assert (Hz' : files_in vs = 0%nat) by lia.
      rewrite <- (app_nil_r vs), scan_skip_dirs by assumption. reflexivity.
  - intros c Hc. destruct (scan T vs 0) as [e c'] eqn:Hs.
    cbn [fst snd] in Hc. injection Hc as -> ->.
    destruct (Hsound _ eq_refl) as (_ & Hc & _). exact Hc.
Qed.

(** X10.  With a limit below the largest [int], [countFiles] counts
    without wrap-around and never runs the callback on more than
    max(limit, 0) + 1 non-directory entries: the count it returns, with
    or without an error, is the number of such entries it visited and is
    at most that bound. *)
Theorem countFiles_bounded (rootDir : string) (s : state) :
  in_int (MaxFiles (opts s)) ->
  MaxFiles (opts s) < int_max ->
  exists seen rest fileCount err,
    visits (fs_tree rootDir (world s)) = (seen ++ rest)%list /\
    countFiles rootDir s = (Ret (fileCount, err), s) /\
    fileCount = Z.of_nat (files_in seen) /\
    fileCount <= Z.max (MaxFiles (opts s)) 0 + 1 /\
    (err = None -> rest = []).
Proof.
  intros HT Hmax. rewrite countFiles_scan. cbn zeta.
  destruct (scan_bounded (MaxFiles (opts s)) (visits (fs_tree rootDir (world s)))
              HT Hmax 0) as (seen & rest & Hsplit & Hc & Hle & Hr); [lia|lia|].
  exists seen, rest, (snd (scan (MaxFiles (opts s)) (visits (fs_tree rootDir (world s))) 0)),
    (fst (scan (MaxFiles (opts s)) (visits (fs_tree rootDir (world s))) 0)).
  repeat split; auto.
Qed.

(** X11.  Raising [max-files] never turns a count that succeeded into a
    failure: in the same world, a larger limit gives the same count and
    no error. *)
Theorem countFiles_limit_monotone (rootDir : string) (s s' : state) (c : int) :
  world s' = world s ->
  MaxFiles (opts s) <= MaxFiles (opts s') ->
  countFiles rootDir s = (Ret (c, None), s) ->
  countFiles rootDir s' = (Ret (c, None), s').
Proof.
  intros Hw HT. rewrite !countFiles_scan. cbn zeta. rewrite Hw.
  destruct (scan (MaxFiles (opts s)) (visits (fs_tree rootDir (world s))) 0)
    as [e c'] eqn:Hs.
  cbn [fst snd]. intros [= -> ->].
  now rewrite (scan_none_mono _ _ _ HT _ _ Hs).
Qed.

(** X12.  A count that [countFiles] returns without error is above the
    limit only when the limit is negative and the count is 0: for a
    limit that is not negative the check that [run] makes after the walk
    can never fail. *)
Theorem countFiles_check_after_walk (rootDir : string) (s s' : state) (c : int) :
  countFiles rootDir s = (Ret (c, None), s') ->
  c > MaxFiles (opts s) ->
  MaxFiles (opts s) < 0 /\ c = 0.
Proof.
  rewrite countFiles_scan. cbn zeta.
  destruct (scan (MaxFiles (opts s)) (visits (fs_tree rootDir (world s))) 0)
    as [e c'] eqn:Hs.
  cbn [fst snd]. intros [= -> -> _] Hgt.
  destruct (scan_none _ _ _ _ Hs) as (_ & Hc & [Hz|Hle]); [|lia].
  rewrite Hz in Hc. cbn in Hc. subst c. lia.
Qed.

End Counter.

(* ===================================================================== *)
(** ** How a run fails *)
(* ===================================================================== *)

Lemma append_assoc (a b c : string) : (a ++ b) ++ c = a ++ (b ++ c).
Proof.
  induction a as [|x a IH]; [reflexivity|].
  change ((String x a ++ b) ++ c) with (String x ((a ++ b) ++ c)).
  now rewrite IH.
Qed.

Lemma error_eqb_eq (a b : error) : error_eqb a b = true <-> a = b.
Proof.
  destruct a, b; cbn; try (split; [discriminate|congruence]);
    try (split; reflexivity);
    rewrite String.eqb_eq; split; congruence.
Qed.

Lemma error_eqb_neq (a b : error) : a <> b -> error_eqb a b = false.
Proof.
  intros Hne. destruct (error_eqb a b) eqn:E; [|reflexivity].
  apply error_eqb_eq in E. contradiction.
Qed.

(** The scan stops at an I/O failure that no limit error comes before. *)
Lemma scan_to_failure (T : int) (pre post : list visit) (msg : string) :
  T <= int_max -> no_failure pre = true ->
  files_in pre = 0%nat \/ Z.of_nat (files_in pre) <= T ->
  scan T (pre ++ VFail msg :: post) 0 =
  (Some (PathError msg), Z.of_nat (files_in pre)).
Proof.
  intros HT Hn [Hz|Hle].
  - rewrite scan_skip_dirs by assumption. rewrite Hz. reflexivity.
  - rewrite scan_app, (scan_within T pre) by (auto; lia). reflexivity.
Qed.

Section Failures.
Context {W : Type} `{HW : Host W}.

(** X1.  When the configuration file cannot be read, [run] returns the
    error of the read behind "failed to configure git user info: ",
    resets the package-level identity to the zero value, logs nothing
    and writes nothing: the trace and the world are as they were. *)
Theorem run_config_unreadable (s : state) (path : string) (err : error) :
  mymazda_ExpandTilde (GitConfig (opts s)) (world s) = Ok path ->
  ini_Load path (world s) = Err err ->
  run s =
  (Ret (Some (FmtError ("failed to configure git user info: " ++ Error err))),
   set_authorInfo {| Name := ""; Email := "" |} s).
Proof.
  intros Hexp Hload. unfold run.
  unfold bind at 1. rewrite configureGitUserInfo_unfold, Hexp, Hload.
  unfold bind at 1. cbn [modify]. unfold ret, fmt.Errorf.
  rewrite (Errorf_wrap "failed to configure git user info: ") by reflexivity.
  reflexivity.
Qed.

(** X2.  When the directory cannot be opened for a reason other than the
    two "no repository here" errors, [run] gives up before it
    initialises anything: it returns the failure behind two prefixes,
    logs nothing and makes no call that writes. *)
Theorem run_open_failure (s : state) (ai : AuthorInfo) (err : error) :
  configureGitUserInfo s = (Ret (ai, None), s) ->
  git_PlainOpenWithOptions (RootDir (opts s)) {| git.DetectDotGit := true |}
    (world s) = Err err ->
  err <> ErrRepositoryNotExists ->
  err <> ErrWorktreeNotProvided ->
  run s =
  (Ret (Some (FmtError
     ("failed to check if directory is under git control: failed to open repository: "
      ++ Error err))),
   set_authorInfo ai s).
Proof.
  intros Hcfg Hopen Hne1 Hne2. unfold run.
  rewrite (bind_ret _ _ _ _ _ Hcfg).
  unfold bind at 1. cbn [modify]. unfold bind at 1. cbn [get].
  unfold bind at 1. rewrite isUnderGitControl_unfold.
  cbn [world opts set_authorInfo]. rewrite Hopen.
  rewrite (error_eqb_neq _ _ Hne1), (error_eqb_neq _ _ Hne2). cbn [orb].
  unfold ret, fmt.Errorf. cbn [Error].
  rewrite (Errorf_wrap "failed to open repository: ") by reflexivity.
  rewrite (Errorf_wrap "failed to check if directory is under git control: ")
    by reflexivity.
  cbn [Error]. rewrite <- append_assoc. reflexivity.
Qed.

(** The run on a directory that is not under version control, up to the
    initialisation. *)
Lemma run_until_init (s : state) (ai : AuthorInfo) (e : error) :
  configureGitUserInfo s = (Ret (ai, None), s) ->
  git_PlainOpenWithOptions (RootDir (opts s)) {| git.DetectDotGit := true |}
    (world s) = Err e ->
  e = ErrRepositoryNotExists \/ e = ErrWorktreeNotProvided ->
  run s =
  bind (initializeGitRepository (RootDir (opts s)))
    (fun err =>
       match err with
       | Some err =>
           ret (Some (fmt.Errorf "failed to initialize git repository: %v"
                        [fmt.AErr err]))
       | None =>
           bind (countFiles (RootDir (opts s)))
             (fun r =>
                let '(fileCount, err) := r in
                match err with
                | Some err =>
                    ret (Some (fmt.Errorf "failed to count files: %v" [fmt.AErr err]))
                | None =>
                    if fileCount >? MaxFiles (opts s)
                    then ret (Some (too_many fileCount (MaxFiles (opts s))))
                    else
                      bind (addAllFiles (RootDir (opts s)))
                        (fun err =>
                           match err with
                           | Some err =>
                               ret (Some (fmt.Errorf "failed to add all files: %v"
                                            [fmt.AErr err]))
                           | None =>
                               bind (commit (RootDir (opts s)) "Boilerplate")
                                 (fun err =>
                                    match err with
                                    | Some err =>
                                        ret (Some (fmt.Errorf "failed to commit: %v"
                                                     [fmt.AErr err]))
                                    | None =>
                                        bind (slog_Info "Git initialization successful." [])
                                          (fun _ => ret None)
                                    end)
                           end)
                end)
       end)
    (emit (Logged slog.LevelInfo "Initializing git repository..." [])
       (set_authorInfo ai s)).
Proof.
  intros Hcfg Hopen He. unfold run.
  rewrite (bind_ret _ _ _ _ _ Hcfg).
  unfold bind at 1. cbn [modify]. unfold bind at 1. cbn [get].
  unfold bind at 1. rewrite isUnderGitControl_unfold.
  cbn [world opts set_authorInfo]. rewrite Hopen.
  assert (Hno : error_eqb e ErrRepositoryNotExists || error_eqb e ErrWorktreeNotProvided
                = true) by (destruct He; subst e; reflexivity).
  rewrite Hno. unfold bind at 1. cbn [slog_Info modify]. reflexivity.
Qed.

(** X3.  When the repository cannot be made, [run] returns the failure
    with the prefix "failed to initialize git repository: " twice, once
    from [initializeGitRepository] and once of its own; it has logged
    the start of the initialisation, has made the one call to
    [PlainInit], for a repository that is not bare, and goes no
    further. *)
Theorem run_init_failure (s : state) (ai : AuthorInfo) (e err : error) (w1 : W) :
  configureGitUserInfo s = (Ret (ai, None), s) ->
  git_PlainOpenWithOptions (RootDir (opts s)) {| git.DetectDotGit := true |}
    (world s) = Err e ->
  e = ErrRepositoryNotExists \/ e = ErrWorktreeNotProvided ->
  git_PlainInit (RootDir (opts s)) false (world s) = (Some err, w1) ->
  exists s',
    run s =
    (Ret (Some (FmtError
       ("failed to initialize git repository: failed to initialize git repository: "
        ++ Error err))), s') /\
    world s' = w1 /\
    trace s' =
      (trace s ++
       [Logged slog.LevelInfo "Initializing git repository..." [];
        CalledPlainInit (RootDir (opts s)) false])%list.
Proof.
  intros Hcfg Hopen He Hinit.
  rewrite (run_until_init s ai e) by assumption.
  unfold initializeGitRepository, PlainInit, act.
  unfold bind at 1. unfold bind at 1.
  cbn [world emit set_authorInfo]. rewrite Hinit.
  eexists. split; [|split].
  - unfold ret, fmt.Errorf. cbn [Error].
    rewrite (Errorf_wrap "failed to initialize git repository: ") by reflexivity.
    rewrite (Errorf_wrap "failed to initialize git repository: ") by reflexivity.
    cbn [Error]. rewrite <- append_assoc. reflexivity.
  - reflexivity.
  - cbn [trace set_world emit set_authorInfo]. now rewrite <- app_assoc.
Qed.

(** X4.  When the walk after the initialisation meets an I/O failure
    before the counter has passed the limit, [run] returns that failure
    behind "failed to count files: " and calls neither [Add] nor
    [Commit]; the repository that was just made stays. *)
Theorem run_walk_failure (s : state) (ai : AuthorInfo) (e : error) (w1 : W)
    (pre post : list visit) (msg : string) :
  configureGitUserInfo s = (Ret (ai, None), s) ->
  git_PlainOpenWithOptions (RootDir (opts s)) {| git.DetectDotGit := true |}
    (world s) = Err e ->
  e = ErrRepositoryNotExists \/ e = ErrWorktreeNotProvided ->
  git_PlainInit (RootDir (opts s)) false (world s) = (None, w1) ->
  in_int (MaxFiles (opts s)) ->
  visits (fs_tree (RootDir (opts s)) w1) = (pre ++ VFail msg :: post)%list ->
  no_failure pre = true ->
  files_in pre = 0%nat \/ Z.of_nat (files_in pre) <= MaxFiles (opts s) ->
  exists s',
    run s = (Ret (Some (FmtError ("failed to count files: " ++ msg))), s') /\
    world s' = w1 /\
    trace s' =
      (trace s ++
       [Logged slog.LevelInfo "Initializing git repository..." [];
        CalledPlainInit (RootDir (opts s)) false])%list.
Proof.
  intros Hcfg Hopen He Hinit [_ HT] Hvisits Hn Hle.
  rewrite (run_until_count s ai e w1) by assumption. cbn zeta.
  rewrite countFiles_scan. cbn zeta.
  cbn [world set_world opts emit set_authorInfo].
  rewrite Hvisits, scan_to_failure by assumption. cbn [fst snd].
  eexists. split; [|split].
  - unfold fmt.Errorf.
    rewrite (Errorf_wrap "failed to count files: ") by reflexivity. reflexivity.
  - reflexivity.
  - cbn [trace set_world emit set_authorInfo]. now rewrite <- app_assoc.
Qed.

Lemma addAllFiles_add_fails (rootDir : string) (s : state)
    (repo : Repository) (wt : Worktree) (err : error) (w2 : W) :
  git_PlainOpen rootDir (world s) = Ok repo ->
  Repository_Worktree repo (world s) = Ok wt ->
  Worktree_Add wt "." (world s) = (Some err, w2) ->
  addAllFiles rootDir s =
  (Ret (Some (fmt.Errorf "failed to add all files: %v" [fmt.AErr err])),
   set_world w2 (emit (CalledAdd wt ".") s)).
Proof.
  intros Hopen Hwt Hadd. unfold addAllFiles, Add, act, bind, look.
  now rewrite Hopen, Hwt, Hadd.
Qed.

Lemma commit_fails (rootDir message : string) (s : state)
    (repo : Repository) (wt : Worktree) (err : error) (w3 : W) :
  git_PlainOpen rootDir (world s) = Ok repo ->
  Repository_Worktree repo (world s) = Ok wt ->
  Worktree_Commit wt message
    {| git.Author := Some {| git.Sig_Name := Name (authorInfo s);
                             git.Sig_Email := Email (authorInfo s);
                             git.Sig_When := time_Now (world s) |} |}
    (world s) = (Some err, w3) ->
  commit rootDir message s =
  (Ret (Some (fmt.Errorf "failed to commit: %v" [fmt.AErr err])),
   set_world w3
     (emit (CalledCommit wt message
              {| git.Author := Some {| git.Sig_Name := Name (authorInfo s);
                                       git.Sig_Email := Email (authorInfo s);
                                       git.Sig_When := time_Now (world s) |} |}) s)).
Proof.
  intros Hopen Hwt Hcommit. unfold commit, Commit, act, bind, look, get.
  now rewrite Hopen, Hwt, Hcommit.
Qed.

(** X5.  When staging fails, [run] returns the failure with the prefix
    "failed to add all files: " twice and does not call [Commit]: the
    directory is left with a repository that has no commit. *)
Theorem run_add_failure (s : state) (ai : AuthorInfo) (e err : error)
    (w1 w2 : W) (repo1 : Repository) (wt1 : Worktree) :
  configureGitUserInfo s = (Ret (ai, None), s) ->
  git_PlainOpenWithOptions (RootDir (opts s)) {| git.DetectDotGit := true |}
    (world s) = Err e ->
  e = ErrRepositoryNotExists \/ e = ErrWorktreeNotProvided ->
  git_PlainInit (RootDir (opts s)) false (world s) = (None, w1) ->
  in_int (MaxFiles (opts s)) ->
  walkable (fs_tree (RootDir (opts s)) w1) ->
  file_count (fs_tree (RootDir (opts s)) w1) <= MaxFiles (opts s) ->
  git_PlainOpen (RootDir (opts s)) w1 = Ok repo1 ->
  Repository_Worktree repo1 w1 = Ok wt1 ->
  Worktree_Add wt1 "." w1 = (Some err, w2) ->
  exists s',
    run s =
    (Ret (Some (FmtError
       ("failed to add all files: failed to add all files: " ++ Error err))), s') /\
    world s' = w2 /\
    trace s' =
      (trace s ++
       [Logged slog.LevelInfo "Initializing git repository..." [];
        CalledPlainInit (RootDir (opts s)) false;
        CalledAdd wt1 "."])%list.
Proof.
  intros Hcfg Hopen He Hinit HT Hwalk Hcount Hopen1 Hwt1 Hadd.
  rewrite (run_until_count s ai e w1) by assumption. cbn zeta.
  rewrite countFiles_within by assumption.
  assert (Hle : (file_count (fs_tree (RootDir (opts s)) w1) >? MaxFiles (opts s)) = false)
    by (apply gtb_false; exact Hcount).
  cbn [world set_world] in Hle |- *. rewrite Hle.
  erewrite bind_ret by (eapply addAllFiles_add_fails; cbn [world set_world]; eassumption).
  eexists. split; [|split].
  - unfold ret, fmt.Errorf. cbn [Error].
    rewrite (Errorf_wrap "failed to add all files: ") by reflexivity.
    rewrite (Errorf_wrap "failed to add all files: ") by reflexivity.
    cbn [Error]. rewrite <- append_assoc. reflexivity.
  - reflexivity.
  - cbn [trace set_world emit set_authorInfo]. now rewrite <- !app_assoc.
Qed.

(** X6.  When the commit fails, [run] returns the failure with the
    prefix "failed to commit: " twice; the repository stays, in the
    state the failed commit left it in, and the line "Git initialization
    successful." is not logged. *)
Theorem run_commit_failure (s : state) (ai : AuthorInfo) (e err : error)
    (w1 w2 w3 : W) (repo1 repo2 : Repository) (wt1 wt2 : Worktree) :
  configureGitUserInfo s = (Ret (ai, None), s) ->
  git_PlainOpenWithOptions (RootDir (opts s)) {| git.DetectDotGit := true |}
    (world s) = Err e ->
  e = ErrRepositoryNotExists \/ e = ErrWorktreeNotProvided ->
  git_PlainInit (RootDir (opts s)) false (world s) = (None, w1) ->
  in_int (MaxFiles (opts s)) ->
  walkable (fs_tree (RootDir (opts s)) w1) ->
  file_count (fs_tree (RootDir (opts s)) w1) <= MaxFiles (opts s) ->
  git_PlainOpen (RootDir (opts s)) w1 = Ok repo1 ->
  Repository_Worktree repo1 w1 = Ok wt1 ->
  Worktree_Add wt1 "." w1 = (None, w2) ->
  git_PlainOpen (RootDir (opts s)) w2 = Ok repo2 ->
  Repository_Worktree repo2 w2 = Ok wt2 ->
  Worktree_Commit wt2 "Boilerplate"
    {| git.Author := Some {| git.Sig_Name := Name ai; git.Sig_Email := Email ai;
                             git.Sig_When := time_Now w2 |} |} w2 = (Some err, w3) ->
  exists s',
    run s =
    (Ret (Some (FmtError ("failed to commit: failed to commit: " ++ Error err))), s') /\
    world s' = w3 /\
    trace s' =
      (trace s ++
       [Logged slog.LevelInfo "Initializing git repository..." [];
        CalledPlainInit (RootDir (opts s)) false;
        CalledAdd wt1 ".";
        CalledCommit wt2 "Boilerplate"
          {| git.Author := Some {| git.Sig_Name := Name ai; git.Sig_Email := Email ai;
                                   git.Sig_When := time_Now w2 |} |}])%list.
Proof.
  intros Hcfg Hopen He Hinit HT Hwalk Hcount Hopen1 Hwt1 Hadd Hopen2 Hwt2 Hcommit.
  rewrite (run_until_count s ai e w1) by assumption. cbn zeta.
  rewrite countFiles_within by assumption.
  assert (Hle : (file_count (fs_tree (RootDir (opts s)) w1) >? MaxFiles (opts s)) = false)
    by (apply gtb_false; exact Hcount).
  cbn [world set_world] in Hle |- *. rewrite Hle.
  erewrite bind_ret by (eapply addAllFiles_ok; cbn [world set_world]; eassumption).
  cbv beta iota.
  erewrite bind_ret by (eapply commit_fails;
                        cbn [world set_world authorInfo emit set_authorInfo];
                        eassumption).
  eexists. split; [|split].
  - unfold ret, fmt.Errorf. cbn [Error].
    rewrite (Errorf_wrap "failed to commit: ") by reflexivity.
    rewrite (Errorf_wrap "failed to commit: ") by reflexivity.
    cbn [Error]. rewrite <- append_assoc. reflexivity.
  - reflexivity.
  - cbn [trace set_world emit set_authorInfo]. now rewrite <- !app_assoc.
Qed.

End Failures.

(* ===================================================================== *)
(** ** What a run never does *)
(* ===================================================================== *)

Lemma writes_app {W} `{Host W} (tr1 tr2 : list event) :
  writes (tr1 ++ tr2) = (writes tr1 ++ writes tr2)%list.
Proof. apply List.filter_app. Qed.

(** Closes a goal that compares the writes of two traces. *)
Ltac close_writes :=
  cbn; unfold writes; rewrite ?List.filter_app;
  cbn [List.filter is_write];
  rewrite ?app_nil_r, <- ?app_assoc; cbn [app];
  auto.

Section Safety.
Context {W : Type} `{HW : Host W}.

Lemma addAllFiles_unfold (rootDir : string) (s : state) :
  addAllFiles rootDir s =
  match git_PlainOpen rootDir (world s) with
  | Err err =>
      (Ret (Some (fmt.Errorf "failed to open repository: %v" [fmt.AErr err])), s)
  | Ok repo =>
      match Repository_Worktree repo (world s) with
      | Err err =>
          (Ret (Some (fmt.Errorf "failed to get worktree: %v" [fmt.AErr err])), s)
      | Ok wt =>
          (Ret match fst (Worktree_Add wt "." (world s)) with
               | Some err =>
                   Some (fmt.Errorf "failed to add all files: %v" [fmt.AErr err])
               | None => None
               end,
           set_world (snd (Worktree_Add wt "." (world s))) (emit (CalledAdd wt ".") s))
      end
  end.
Proof.
  unfold addAllFiles, Add, act, bind, look.
  destruct (git_PlainOpen rootDir (world s)) as [repo|err]; [|reflexivity].
  destruct (Repository_Worktree repo (world s)) as [wt|err]; [|reflexivity].
  destruct (Worktree_Add wt "." (world s)) as [[err|] w2]; reflexivity.
Qed.

Lemma commit_unfold (rootDir message : string) (s : state) :
  commit rootDir message s =
  match git_PlainOpen rootDir (world s) with
  | Err err =>
      (Ret (Some (fmt.Errorf "failed to open repository: %v" [fmt.AErr err])), s)
  | Ok repo =>
      match Repository_Worktree repo (world s) with
      | Err err =>
          (Ret (Some (fmt.Errorf "failed to get worktree: %v" [fmt.AErr err])), s)
      | Ok wt =>
          let o := {| git.Author :=
                        Some {| git.Sig_Name := Name (authorInfo s);
                                git.Sig_Email := Email (authorInfo s);
                                git.Sig_When := time_Now (world s) |} |} in
          (Ret match fst (Worktree_Commit wt message o (world s)) with
               | Some err => Some (fmt.Errorf "failed to commit: %v" [fmt.AErr err])
               | None => None
               end,
           set_world (snd (Worktree_Commit wt message o (world s)))
             (emit (CalledCommit wt message o) s))
      end
  end.
Proof.
  unfold commit, Commit, act, bind, look, get.
  destruct (git_PlainOpen rootDir (world s)) as [repo|err]; [|reflexivity].
  destruct (Repository_Worktree repo (world s)) as [wt|err]; [|reflexivity].
  cbn zeta.
  destruct (Worktree_Commit wt message _ (world s)) as [[err|] w3]; reflexivity.
Qed.

(** X7.  Whatever the libraries answer, the calls by which one [run]
    writes are a beginning of the sequence [PlainInit], [Add], [Commit],
    each made at most once.  With no such call the world is as it was.
    [PlainInit] is called only on a directory that did not open as a
    repository; [Add] only after the repository was made and the walk
    returned, without error, a count within the limit; [Commit] only
    after [Add], with the message "Boilerplate" and the package-level
    identity as author. *)
Theorem run_writes (s : state) :
  (writes (trace (snd (run s))) = writes (trace s) /\
   world (snd (run s)) = world s) \/
  ((exists e,
      git_PlainOpenWithOptions (RootDir (opts s)) {| git.DetectDotGit := true |}
        (world s) = Err e /\
      (e = ErrRepositoryNotExists \/ e = ErrWorktreeNotProvided)) /\
   (writes (trace (snd (run s))) =
      (writes (trace s) ++ [CalledPlainInit (RootDir (opts s)) false])%list \/
    ((exists w1 c,
        git_PlainInit (RootDir (opts s)) false (world s) = (None, w1) /\
        countFiles (RootDir (opts s)) (set_world w1 s) =
          (Ret (c, None), set_world w1 s) /\
        c <= MaxFiles (opts s)) /\
     exists wt,
       writes (trace (snd (run s))) =
         (writes (trace s) ++
          [CalledPlainInit (RootDir (opts s)) false; CalledAdd wt "."])%list \/
       exists wt' now,
         writes (trace (snd (run s))) =
           (writes (trace s) ++
            [CalledPlainInit (RootDir (opts s)) false; CalledAdd wt ".";
             CalledCommit wt' "Boilerplate"
               {| git.Author :=
                    Some {| git.Sig_Name := Name (authorInfo (snd (run s)));
                            git.Sig_Email := Email (authorInfo (snd (run s)));
                            git.Sig_When := now |} |}])%list))).
Proof.
  remember (run s) as p eqn:Hp. symmetry in Hp. revert Hp.
  pose proof (configureGitUserInfo_unfold s) as Hcfg.
  destruct (mymazda_ExpandTilde (GitConfig (opts s)) (world s)) as [path|perr] eqn:Hexp.
  2:{ unfold run. rewrite (bind_panic _ _ _ _ _ Hcfg). intros <-. left. split; close_writes. }
  destruct (ini_Load path (world s)) as [config|lerr] eqn:Hload.
  2:{ unfold run. rewrite (bind_ret _ _ _ _ _ Hcfg). intros <-. left. split; close_writes. }
  destruct (git_PlainOpenWithOptions (RootDir (opts s))
              {| git.DetectDotGit := true |} (world s)) as [r|e] eqn:Hopen.
  { rewrite (run_tracked s path config r Hexp Hload Hopen). intros <-. left.
    close_writes. }
  destruct (error_eqb e ErrRepositoryNotExists || error_eqb e ErrWorktreeNotProvided)
    eqn:Hsent.
  2:{ unfold run. rewrite (bind_ret _ _ _ _ _ Hcfg).
      unfold bind at 1. cbn [modify]. unfold bind at 1. cbn [get].
      unfold bind at 1. rewrite isUnderGitControl_unfold.
      cbn [world opts set_authorInfo]. rewrite Hopen, Hsent.
      intros <-. left. split; close_writes. }
  assert (He : e = ErrRepositoryNotExists \/ e = ErrWorktreeNotProvided).
  { apply orb_true_iff in Hsent as [E|E]; apply error_eqb_eq in E; auto. }
  destruct (git_PlainInit (RootDir (opts s)) false (world s)) as [[ierr|] w1] eqn:Hinit.
  { rewrite (run_until_init s _ e Hcfg Hopen He).
    unfold initializeGitRepository, PlainInit, act.
    unfold bind at 1. unfold bind at 1.
    cbn [world emit set_authorInfo]. rewrite Hinit.
    intros <-. right. split; [eauto|]. left. close_writes. }
  rewrite (run_until_count s _ e w1 Hcfg Hopen He Hinit). cbn zeta.
  rewrite countFiles_scan. cbn zeta.
  cbn [world opts set_world emit set_authorInfo].
  destruct (scan (MaxFiles (opts s)) (visits (fs_tree (RootDir (opts s)) w1)) 0)
    as [[cerr|] c] eqn:Hscan; cbn [fst snd].
  { intros <-. right. split; [eauto|]. left. close_writes. }
  destruct (c >? MaxFiles (opts s)) eqn:Hgt.
  { intros <-. right. split; [eauto|]. left. close_writes. }
  apply gtb_false in Hgt.
  assert (Hguard : exists w1' c',
             (None (A:=error), w1) = (None, w1') /\
             countFiles (RootDir (opts s)) (set_world w1' s) =
               (Ret (c', None), set_world w1' s) /\
             c' <= MaxFiles (opts s)).
  { exists w1, c. split; [reflexivity|]. split; [|exact Hgt].
    rewrite countFiles_scan. cbn [world opts set_world]. now rewrite Hscan. }
  unfold bind at 1. rewrite addAllFiles_unfold.
  cbn [world set_world emit set_authorInfo].
  destruct (git_PlainOpen (RootDir (opts s)) w1) as [repo1|oerr].
  2:{ intros <-. right. split; [eauto|]. left. close_writes. }
  destruct (Repository_Worktree repo1 w1) as [wt1|werr].
  2:{ intros <-. right. split; [eauto|]. left. close_writes. }
  destruct (Worktree_Add wt1 "." w1) as [[aerr|] w2]; cbn [fst snd].
  { intros <-. right. split; [eauto|]. right. split; [exact Hguard|].
    exists wt1. left. close_writes. }
  unfold bind at 1. rewrite commit_unfold.
  cbn [world authorInfo set_world emit set_authorInfo].
  destruct (git_PlainOpen (RootDir (opts s)) w2) as [repo2|oerr].
  2:{ intros <-. right. split; [eauto|]. right. split; [exact Hguard|].
      exists wt1. left. close_writes. }
  destruct (Repository_Worktree repo2 w2) as [wt2|werr].
  2:{ intros <-. right. split; [eauto|]. right. split; [exact Hguard|].
      exists wt1. left. close_writes. }
  cbn zeta.
  destruct (Worktree_Commit _ _ _ _) as [[merr|] w3]; cbn [fst snd];
    intros <-; (right; split; [eauto|]; right; split; [exact Hguard|];
                exists wt1; right; exists wt2, (time_Now w2);
                close_writes).
Qed.

(** X8.  On a directory that opens as a repository [run] never writes,
    whatever else happens: the configuration may be unreadable, the
    home directory unknown; no [PlainInit], [Add] or [Commit] is called
    and the world is as it was. *)
Theorem run_tracked_untouched (s : state) (r : Repository) :
  git_PlainOpenWithOptions (RootDir (opts s)) {| git.DetectDotGit := true |}
    (world s) = Ok r ->
  writes (trace (snd (run s))) = writes (trace s) /\
  world (snd (run s)) = world s.
Proof.
  intros Hopen.
  remember (run s) as p eqn:Hp. symmetry in Hp. revert Hp.
  pose proof (configureGitUserInfo_unfold s) as Hcfg.
  destruct (mymazda_ExpandTilde (GitConfig (opts s)) (world s)) as [path|perr] eqn:Hexp.
  2:{ unfold run. rewrite (bind_panic _ _ _ _ _ Hcfg). intros <-. split; close_writes. }
  destruct (ini_Load path (world s)) as [config|lerr] eqn:Hload.
  2:{ unfold run. rewrite (bind_ret _ _ _ _ _ Hcfg). intros <-. split; close_writes. }
  rewrite (run_tracked s path config r Hexp Hload Hopen). intros <-.
  close_writes.
Qed.

(** X13.  A run that stops at the file limit leaves the repository it
    has just made.  When the directory then opens as a repository, the
    next run finds it under version control, returns nil and commits
    nothing: over the two runs the only call that writes is the one
    [PlainInit], and no commit is ever made. *)
Theorem run_again_after_limit (s : state) (ai ai' : AuthorInfo) (e : error)
    (w1 : W) (r : Repository) :
  configureGitUserInfo s = (Ret (ai, None), s) ->
  git_PlainOpenWithOptions (RootDir (opts s)) {| git.DetectDotGit := true |}
    (world s) = Err e ->
  e = ErrRepositoryNotExists \/ e = ErrWorktreeNotProvided ->
  git_PlainInit (RootDir (opts s)) false (world s) = (None, w1) ->
  in_int (MaxFiles (opts s)) ->
  walkable (fs_tree (RootDir (opts s)) w1) ->
  MaxFiles (opts s) < file_count (fs_tree (RootDir (opts s)) w1) <= int_max ->
  configureGitUserInfo (set_world w1 s) = (Ret (ai', None), set_world w1 s) ->
  git_PlainOpenWithOptions (RootDir (opts s)) {| git.DetectDotGit := true |} w1 = Ok r ->
  exists err s1 s2,
    run s = (Ret (Some err), s1) /\
    run s1 = (Ret None, s2) /\
    world s2 = w1 /\
    writes (trace s2) =
      (writes (trace s) ++ [CalledPlainInit (RootDir (opts s)) false])%list.
Proof.
  intros Hcfg Hopen He Hinit HT Hwalk Hcount Hcfg1 Hopen1.
  assert (Hsecond : forall s1 : state,
            opts s1 = opts s -> world s1 = w1 ->
            exists s2, run s1 = (Ret None, s2) /\ world s2 = w1 /\
                       writes (trace s2) = writes (trace s1)).
  { intros s1 Ho Hw.
    rewrite configureGitUserInfo_unfold in Hcfg1.
    cbn [world opts set_world] in Hcfg1.
    destruct (mymazda_ExpandTilde (GitConfig (opts s)) w1) as [path|perr] eqn:Hexp1;
      [|discriminate].
    destruct (ini_Load path w1) as [config|lerr] eqn:Hload1; [|discriminate].
    rewrite <- Ho, <- Hw in Hexp1, Hopen1. rewrite <- Hw in Hload1.
    rewrite (run_tracked s1 path config r Hexp1 Hload1 Hopen1).
    eexists. split; [reflexivity|]. split; [exact Hw|]. close_writes. }
  rewrite (run_until_count s ai e w1) by assumption. cbn zeta.
  rewrite countFiles_beyond by assumption.
  cbn [world set_world opts emit set_authorInfo].
  set (s1 := set_world w1 _).
  destruct (Hsecond s1 eq_refl eq_refl) as (s2 & Hrun2 & Hw2 & Ht2).
  assert (Ht1 : writes (trace s1) =
                (writes (trace s) ++ [CalledPlainInit (RootDir (opts s)) false])%list)
    by (subst s1; close_writes).
  destruct (0 <? file_count (fs_tree (RootDir (opts s)) w1))%Z eqn:Hpos.
  - eexists. exists s1, s2. split; [reflexivity|]. split; [exact Hrun2|].
    split; [exact Hw2|]. congruence.
  - apply Z.ltb_ge in Hpos.
    assert (Hgt : (0 >? MaxFiles (opts s)) = true) by (apply gtb_true; lia).
    rewrite Hgt.
    eexists. exists s1, s2. split; [reflexivity|]. split; [exact Hrun2|].
    split; [exact Hw2|]. congruence.
Qed.

(** X14.  When flag parsing and the log set-up succeed and the
    home-directory shorthand cannot be expanded, [Execute] returns no
    exit code at all: it panics with the error of the expansion, and the
    line "run failed" is not logged. *)
Theorem Execute_panics (s : state) (o1 o2 o3 : Opts) (err : error) :
  flags_ParseArgs (opts s) (os_Args (world s)) = (o1, None) ->
  host_setLogLevel o1 (world s) = (None, o2) ->
  host_setupLogger o2 (world s) = (None, o3) ->
  mymazda_ExpandTilde (GitConfig o3) (world s) = Err err ->
  Execute s = (Panic err, set_opts o3 s).
Proof.
  intros Hparse Hlevel Hlogger Hexp. unfold Execute.
  unfold bind at 1. unfold parseFlags. rewrite Hparse.
  unfold bind at 1. unfold setLogLevel. cbn [opts world set_opts]. rewrite Hlevel.
  unfold bind at 1. unfold setupLogger. cbn [opts world set_opts]. rewrite Hlogger.
  apply bind_panic. unfold run. apply bind_panic.
  rewrite configureGitUserInfo_unfold. cbn [opts world set_opts].
  now rewrite Hexp.
Qed.

(** X15.  [run] returns nil in two ways only.  Either the directory
    opened as a repository, and then nothing was written and the one
    line "Directory is already under git control." was logged; or the
    whole sequence was carried out: the repository made, ["."] staged,
    one commit "Boilerplate" made with the package-level identity as
    author, and "Git initialization successful." logged last.  A nil
    error on a directory that was not tracked therefore means that the
    commit was attempted and did not fail. *)
Theorem run_nil (s s' : state) :
  run s = (Ret None, s') ->
  (exists r,
     git_PlainOpenWithOptions (RootDir (opts s)) {| git.DetectDotGit := true |}
       (world s) = Ok r /\
     world s' = world s /\
     trace s' =
       (trace s ++
        [Logged slog.LevelInfo "Directory is already under git control." []])%list) \/
  (exists wt wt' now,
     trace s' =
       (trace s ++
        [Logged slog.LevelInfo "Initializing git repository..." [];
         CalledPlainInit (RootDir (opts s)) false;
         CalledAdd wt ".";
         CalledCommit wt' "Boilerplate"
           {| git.Author := Some {| git.Sig_Name := Name (authorInfo s');
                                    git.Sig_Email := Email (authorInfo s');
                                    git.Sig_When := now |} |};
         Logged slog.LevelInfo "Git initialization successful." []])%list).
Proof.
  pose proof (configureGitUserInfo_unfold s) as Hcfg.
  destruct (mymazda_ExpandTilde (GitConfig (opts s)) (world s)) as [path|perr] eqn:Hexp.
  2:{ unfold run. rewrite (bind_panic _ _ _ _ _ Hcfg). discriminate. }
  destruct (ini_Load path (world s)) as [config|lerr] eqn:Hload.
  2:{ unfold run. rewrite (bind_ret _ _ _ _ _ Hcfg). discriminate. }
  destruct (git_PlainOpenWithOptions (RootDir (opts s))
              {| git.DetectDotGit := true |} (world s)) as [r|e] eqn:Hopen.
  { rewrite (run_tracked s path config r Hexp Hload Hopen). intros [= <-].
    left. exists r. auto. }
  destruct (error_eqb e ErrRepositoryNotExists || error_eqb e ErrWorktreeNotProvided)
    eqn:Hsent.
  2:{ unfold run. rewrite (bind_ret _ _ _ _ _ Hcfg).
      unfold bind at 1. cbn [modify]. unfold bind at 1. cbn [get].
      unfold bind at 1. rewrite isUnderGitControl_unfold.
      cbn [world opts set_authorInfo]. rewrite Hopen, Hsent. discriminate. }
  assert (He : e = ErrRepositoryNotExists \/ e = ErrWorktreeNotProvided).
  { apply orb_true_iff in Hsent as [E|E]; apply error_eqb_eq in E; auto. }
  destruct (git_PlainInit (RootDir (opts s)) false (world s)) as [[ierr|] w1] eqn:Hinit.
  { rewrite (run_until_init s _ e Hcfg Hopen He).
    unfold initializeGitRepository, PlainInit, act.
    unfold bind at 1. unfold bind at 1.
    cbn [world emit set_authorInfo]. rewrite Hinit. discriminate. }
  rewrite (run_until_count s _ e w1 Hcfg Hopen He Hinit). cbn zeta.
  rewrite countFiles_scan. cbn zeta.
  cbn [world opts set_world emit set_authorInfo].
  destruct (scan (MaxFiles (opts s)) (visits (fs_tree (RootDir (opts s)) w1)) 0)
    as [[cerr|] c]; cbn [fst snd]; [discriminate|].
  destruct (c >? MaxFiles (opts s)); [discriminate|].
  unfold bind at 1. rewrite addAllFiles_unfold.
  cbn [world set_world emit set_authorInfo].
  destruct (git_PlainOpen (RootDir (opts s)) w1) as [repo1|oerr]; [|discriminate].
  destruct (Repository_Worktree repo1 w1) as [wt1|werr]; [|discriminate].
  destruct (Worktree_Add wt1 "." w1) as [[aerr|] w2]; cbn [fst snd]; [discriminate|].
  unfold bind at 1. rewrite commit_unfold.
  cbn [world authorInfo set_world emit set_authorInfo].
  destruct (git_PlainOpen (RootDir (opts s)) w2) as [repo2|oerr]; [|discriminate].
  destruct (Repository_Worktree repo2 w2) as [wt2|werr]; [|discriminate].
  cbn zeta.
  destruct (Worktree_Commit _ _ _ _) as [[merr|] w3]; cbn [fst snd]; [discriminate|].
  intros [= <-]. right. exists wt1, wt2, (time_Now w2).
  cbn. now rewrite <- !app_assoc.
Qed.

End Safety.

(* ===================================================================== *)
(** ** The further theorems at work in the small worlds *)
(* ===================================================================== *)

(** Three files, the default limit: the count is exact. *)
Lemma countFiles_exact_witness :
  let s := Sim.start Sim.defaults Sim.fresh in
  ((exists c, countFiles "." s = (Ret (c, None), s)) <->
   walkable (Sim.tree Sim.fresh) /\
   (file_count (Sim.tree Sim.fresh) <= 100 \/ file_count (Sim.tree Sim.fresh) = 0)) /\
  (forall c, countFiles "." s = (Ret (c, None), s) -> c = file_count (Sim.tree Sim.fresh)).
Proof.
  cbv zeta. apply (countFiles_exact "." (Sim.start Sim.defaults Sim.fresh)).
  - apply in_int_small. cbn. lia.
  - vm_compute. discriminate.
Defined.

(** Three files, a limit of 1: two files are looked at. *)
Lemma countFiles_bounded_witness :
  let s := Sim.start (Sim.with_MaxFiles 1 Sim.defaults) Sim.fresh in
  exists seen rest fileCount err,
    visits (Sim.tree Sim.fresh) = (seen ++ rest)%list /\
    countFiles "." s = (Ret (fileCount, err), s) /\
    fileCount = Z.of_nat (files_in seen) /\
    fileCount <= Z.max 1 0 + 1 /\
    (err = None -> rest = []).
Proof.
  cbv zeta.
  apply (countFiles_bounded "." (Sim.start (Sim.with_MaxFiles 1 Sim.defaults) Sim.fresh)).
  - apply in_int_small. cbn. lia.
  - reflexivity.
Defined.

(** A limit of 3 is enough for three files, so is a limit of 100. *)
Lemma countFiles_limit_monotone_witness :
  countFiles "." (Sim.start Sim.defaults Sim.fresh) =
  (Ret (3, None), Sim.start Sim.defaults Sim.fresh).
Proof.
  apply (countFiles_limit_monotone "."
           (Sim.start (Sim.with_MaxFiles 3 Sim.defaults) Sim.fresh)
           (Sim.start Sim.defaults Sim.fresh) 3).
  - reflexivity.
  - cbn. lia.
  - reflexivity.
Defined.

(** A limit of -1 and an empty directory. *)
Lemma countFiles_check_after_walk_witness :
  let s := Sim.start (Sim.with_MaxFiles (-1) Sim.defaults)
             (Sim.with_tree (filepath.Dir []) Sim.fresh) in
  countFiles "." s = (Ret (0, None), s) /\ MaxFiles (opts s) < 0 /\ 0 = 0.
Proof.
  cbv zeta. split; [reflexivity|].
  apply (countFiles_check_after_walk "."
           (Sim.start (Sim.with_MaxFiles (-1) Sim.defaults)
              (Sim.with_tree (filepath.Dir []) Sim.fresh))
           (Sim.start (Sim.with_MaxFiles (-1) Sim.defaults)
              (Sim.with_tree (filepath.Dir []) Sim.fresh)) 0).
  - reflexivity.
  - reflexivity.
Defined.

(** No configuration file: the run fails before it looks at the
    directory. *)
Lemma run_config_unreadable_witness :
  let s := Sim.start Sim.defaults Sim.tracked_noconfig in
  run s =
  (Ret (Some (FmtError
     "failed to configure git user info: open /home/ada/.gitconfig: no such file or directory")),
   set_authorInfo {| Name := ""; Email := "" |} s).
Proof.
  cbv zeta.
  apply (run_config_unreadable (Sim.start Sim.defaults Sim.tracked_noconfig)
           "/home/ada/.gitconfig"
           (PathError "open /home/ada/.gitconfig: no such file or directory")).
  - reflexivity.
  - reflexivity.
Defined.

(** The directory cannot be opened. *)
Lemma run_open_failure_witness :
  let s := Faulty.start Sim.defaults
             (Faulty.failing_open (LibError "permission denied") Sim.fresh) in
  run s =
  (Ret (Some (FmtError
     "failed to check if directory is under git control: failed to open repository: permission denied")),
   set_authorInfo {| Name := "Ada"; Email := "ada@example.org" |} s).
Proof.
  cbv zeta.
  apply (run_open_failure
           (Faulty.start Sim.defaults
              (Faulty.failing_open (LibError "permission denied") Sim.fresh))
           {| Name := "Ada"; Email := "ada@example.org" |}
           (LibError "permission denied")).
  - reflexivity.
  - reflexivity.
  - discriminate.
  - discriminate.
Defined.

(** The repository cannot be made. *)
Lemma run_init_failure_witness :
  let w := Faulty.failing_init (LibError "mkdir .git: permission denied") Sim.fresh in
  exists s' : Faulty.proc,
    run (Faulty.start Sim.defaults w) =
    (Ret (Some (FmtError
       "failed to initialize git repository: failed to initialize git repository: mkdir .git: permission denied")),
     s') /\
    world s' = w /\
    trace s' =
      [Logged slog.LevelInfo "Initializing git repository..." [];
       CalledPlainInit "." false].
Proof.
  cbv zeta.
  apply (run_init_failure
           (Faulty.start Sim.defaults
              (Faulty.failing_init (LibError "mkdir .git: permission denied") Sim.fresh))
           {| Name := "Ada"; Email := "ada@example.org" |} ErrRepositoryNotExists
           (LibError "mkdir .git: permission denied")).
  - reflexivity.
  - reflexivity.
  - left; reflexivity.
  - reflexivity.
Defined.

(** A subdirectory that cannot be read, met after the two files of the
    new repository. *)
Lemma run_walk_failure_witness :
  let w := Sim.with_tree Sim.locked_then_file Sim.fresh in
  exists s' : Sim.proc,
    run (Sim.start Sim.defaults w) =
    (Ret (Some (FmtError "failed to count files: open locked: permission denied")), s') /\
    world s' = snd (Sim.Init "." false w) /\
    trace s' =
      [Logged slog.LevelInfo "Initializing git repository..." [];
       CalledPlainInit "." false].
Proof.
  cbv zeta.
  apply (run_walk_failure
           (Sim.start Sim.defaults (Sim.with_tree Sim.locked_then_file Sim.fresh))
           {| Name := "Ada"; Email := "ada@example.org" |} ErrRepositoryNotExists
           (snd (Sim.Init "." false (Sim.with_tree Sim.locked_then_file Sim.fresh)))
           [VDir; VDir; VFile; VFile] [VFile] "open locked: permission denied").
  - reflexivity.
  - reflexivity.
  - left; reflexivity.
  - reflexivity.
  - apply in_int_small. cbn. lia.
  - reflexivity.
  - reflexivity.
  - right. cbn. lia.
Defined.

(** Staging fails. *)
Lemma run_add_failure_witness :
  let w := Faulty.failing_add (LibError "index locked") Sim.fresh in
  exists s' : Faulty.proc,
    run (Faulty.start Sim.defaults w) =
    (Ret (Some (FmtError
       "failed to add all files: failed to add all files: index locked")), s') /\
    world s' = Faulty.with_base (snd (Sim.Init "." false Sim.fresh)) w /\
    trace s' =
      [Logged slog.LevelInfo "Initializing git repository..." [];
       CalledPlainInit "." false;
       CalledAdd (Faulty.worktree ".") "."].
Proof.
  cbv zeta.
  apply (run_add_failure
           (Faulty.start Sim.defaults
              (Faulty.failing_add (LibError "index locked") Sim.fresh))
           {| Name := "Ada"; Email := "ada@example.org" |} ErrRepositoryNotExists
           (LibError "index locked")
           (Faulty.with_base (snd (Sim.Init "." false Sim.fresh))
              (Faulty.failing_add (LibError "index locked") Sim.fresh))
           _ "." ".").
  - reflexivity.
  - reflexivity.
  - left; reflexivity.
  - reflexivity.
  - apply in_int_small. cbn. lia.
  - reflexivity.
  - vm_compute. discriminate.
  - reflexivity.
  - reflexivity.
  - reflexivity.
Defined.

(** The commit fails. *)
Lemma run_commit_failure_witness :
  let w := Faulty.failing_commit (LibError "invalid author") Sim.fresh in
  let author := {| git.Author := Some {| git.Sig_Name := "Ada";
                                         git.Sig_Email := "ada@example.org";
                                         git.Sig_When := 1700000000 |} |} in
  exists s' : Faulty.proc,
    run (Faulty.start Sim.defaults w) =
    (Ret (Some (FmtError "failed to commit: failed to commit: invalid author")), s') /\
    world s' =
      Faulty.with_base (snd (Sim.Stage "." "." (snd (Sim.Init "." false Sim.fresh)))) w /\
    trace s' =
      [Logged slog.LevelInfo "Initializing git repository..." [];
       CalledPlainInit "." false;
       CalledAdd (Faulty.worktree ".") ".";
       CalledCommit (Faulty.worktree ".") "Boilerplate" author].
Proof.
  cbv zeta.
  apply (run_commit_failure
           (Faulty.start Sim.defaults
              (Faulty.failing_commit (LibError "invalid author") Sim.fresh))
           {| Name := "Ada"; Email := "ada@example.org" |} ErrRepositoryNotExists
           (LibError "invalid author")
           (Faulty.with_base (snd (Sim.Init "." false Sim.fresh))
              (Faulty.failing_commit (LibError "invalid author") Sim.fresh))
           (Faulty.with_base (snd (Sim.Stage "." "." (snd (Sim.Init "." false Sim.fresh))))
              (Faulty.failing_commit (LibError "invalid author") Sim.fresh))
           _ "." "." "." ".").
  - reflexivity.
  - reflexivity.
  - left; reflexivity.
  - reflexivity.
  - apply in_int_small. cbn. lia.
  - reflexivity.
  - vm_compute. discriminate.
  - reflexivity.
  - reflexivity.
  - reflexivity.
  - reflexivity.
  - reflexivity.
  - reflexivity.
Defined.

(** A tracked directory, no configuration file: nothing is written. *)
Lemma run_tracked_untouched_witness :
  let s := Sim.start Sim.defaults Sim.tracked_noconfig in
  writes (trace (snd (run s))) = writes (trace s) /\
  world (snd (run s)) = world s.
Proof.
  cbv zeta.
  apply (run_tracked_untouched (Sim.start Sim.defaults Sim.tracked_noconfig) ".").
  reflexivity.
Defined.

(** Three files and a limit of 1: the first run stops at the limit, the
    second finds the repository of the first and commits nothing. *)
Lemma run_again_after_limit_witness :
  let s := Sim.start (Sim.with_MaxFiles 1 Sim.defaults) Sim.fresh in
  exists (err : error) (s1 s2 : Sim.proc),
    run s = (Ret (Some err), s1) /\
    run s1 = (Ret None, s2) /\
    world s2 = snd (Sim.Init "." false Sim.fresh) /\
    writes (trace s2) = [CalledPlainInit "." false].
Proof.
  cbv zeta.
  apply (run_again_after_limit
           (Sim.start (Sim.with_MaxFiles 1 Sim.defaults) Sim.fresh)
           {| Name := "Ada"; Email := "ada@example.org" |}
           {| Name := "Ada"; Email := "ada@example.org" |}
           ErrRepositoryNotExists
           (snd (Sim.Init "." false Sim.fresh)) ".").
  - reflexivity.
  - reflexivity.
  - left; reflexivity.
  - reflexivity.
  - apply in_int_small. cbn. lia.
  - reflexivity.
  - vm_compute. split; [reflexivity|discriminate].
  - reflexivity.
  - reflexivity.
Defined.

(** The home directory is unknown. *)
Lemma Execute_panics_witness :
  let s := Sim.start Sim.defaults Sim.homeless in
  Execute s =
  (Panic (LibError "user: Current requires cgo or $USER, $HOME set in environment"),
   set_opts Sim.defaults s).
Proof.
  cbv zeta.
  apply (Execute_panics (Sim.start Sim.defaults Sim.homeless)
           Sim.defaults Sim.defaults Sim.defaults).
  - reflexivity.
  - reflexivity.
  - reflexivity.
  - reflexivity.
Defined.

(** The run on the fresh directory returns nil: the commit was made. *)
Lemma run_nil_witness :
  let s := Sim.start Sim.defaults Sim.fresh in
  (exists r,
     Sim.Open "." Sim.fresh = Ok r /\
     world (snd (run s)) = Sim.fresh /\
     trace (snd (run s)) =
       [Logged slog.LevelInfo "Directory is already under git control." []]) \/
  (exists wt wt' now,
     trace (snd (run s)) =
       [Logged slog.LevelInfo "Initializing git repository..." [];
        CalledPlainInit "." false;
        CalledAdd wt ".";
        CalledCommit wt' "Boilerplate"
          {| git.Author := Some {| git.Sig_Name := Name (authorInfo (snd (run s)));
                                   git.Sig_Email := Email (authorInfo (snd (run s)));
                                   git.Sig_When := now |} |};
        Logged slog.LevelInfo "Git initialization successful." []]).
Proof.
  cbv zeta.
  apply (run_nil (Sim.start Sim.defaults Sim.fresh)
           (snd (run (Sim.start Sim.defaults Sim.fresh)))).
  vm_compute. reflexivity.
Defined.
